(** * A versioned configuration store

    Shallow embedding of [config_parser_versioned_rollback.py]: the YAML
    normalizer, the MongoDB-backed version store, rollback, the HTTP read
    helpers and the watchdog handler, followed by the properties of the
    specification that can be stated over them.

    Conventions of the embedding.
    - A parsed YAML document is a [value]; a mapping is an association list
      in insertion order, as a Python [dict] and a BSON document are.
    - A Python [str] is a [string] whose characters are read as the code
      points U+0000..U+00FF.
    - Every function that talks to the outside is a computation in [M]: it
      threads a [World] (collection, file system, clock, console) and
      either returns or raises.
    - A function that falls off its end or executes a bare [return] yields
      Python's [None]; it is the [None] of an [option] below.
    - An integer of a stored document has 8 bytes: a document that holds a
      larger one is refused by the server's encoding, and whatever the
      state, the documents the collection returns hold none.
    - Left out: YAML scalars other than null, booleans, integers and
      strings; mapping keys other than strings; characters beyond U+00FF
      (among them the decimal digits of other scripts, which [str.isdigit]
      and [int] accept); the [_id] the server adds to a document; the
      encoding of a version number beyond 8 bytes, in a new record or
      asked for in a rollback, which counting from 1 does not reach. *)

From Stdlib Require Import ZArith List String Ascii Bool Arith Lia.
From Stdlib Require Import DecimalString.
From Stdlib Require Import Sorted Permutation.
Import ListNotations.

Set Warnings "-register-all".

Local Open Scope string_scope.
Local Open Scope list_scope.
Local Open Scope Z_scope.

(** ** Python results *)

Inductive exn : Type :=
| ValueError (msg : string)
| OSError (msg : string)
| YAMLError (msg : string)
| OverflowError (msg : string)
| ServerSelectionTimeoutError (msg : string).

(** [str(e)] *)
Definition str_of_exn (e : exn) : string :=
  match e with
  | ValueError m => m
  | OSError m => m
  | YAMLError m => m
  | OverflowError m => m
  | ServerSelectionTimeoutError m => m
  end.

Inductive result (A : Type) : Type :=
| Ok (a : A)
| Raise (e : exn).

Arguments Ok {A} a.
Arguments Raise {A} e.

Definition rbind {A B : Type} (r : result A) (k : A -> result B) : result B :=
  match r with
  | Ok a => k a
  | Raise e => Raise e
  end.

(** ** Documents *)

Inductive value : Type :=
| VNone
| VBool (b : bool)
| VInt (n : Z)
| VStr (s : string)
| VList (items : list value)
| VDict (items : list (string * value)).

(** Equality of stored values as the collection's equality filter
    [{"config": data}] sees it: same shape, same scalars, and the fields of
    a mapping compared one by one in document order. *)
Fixpoint value_eqb (a b : value) {struct a} : bool :=
  match a, b with
  | VNone, VNone => true
  | VBool x, VBool y => Bool.eqb x y
  | VInt x, VInt y => Z.eqb x y
  | VStr x, VStr y => String.eqb x y
  | VList xs, VList ys =>
      (fix go (xs ys : list value) {struct xs} : bool :=
         match xs, ys with
         | [], [] => true
         | x :: xs', y :: ys' => value_eqb x y && go xs' ys'
         | _, _ => false
         end) xs ys
  | VDict xs, VDict ys =>
      (fix go (xs ys : list (string * value)) {struct xs} : bool :=
         match xs, ys with
         | [], [] => true
         | (k, x) :: xs', (l, y) :: ys' =>
             String.eqb k l && value_eqb x y && go xs' ys'
         | _, _ => false
         end) xs ys
  | _, _ => false
  end.

(** Python truthiness, [if data:] *)
Definition truthy (v : value) : bool :=
  match v with
  | VNone => false
  | VBool b => b
  | VInt n => negb (n =? 0)
  | VStr s => negb (String.eqb s EmptyString)
  | VList l => match l with [] => false | _ => true end
  | VDict l => match l with [] => false | _ => true end
  end.

(** ** Strings: [str.isdigit], [int], [str(int)] *)

Definition is_decimal_char (c : ascii) : bool :=
  let n := nat_of_ascii c in (48 <=? n)%nat && (n <=? 57)%nat.

(** U+00B2, U+00B3 and U+00B9 are digits for [str.isdigit] but are not
    accepted by [int]. *)
Definition is_superscript_char (c : ascii) : bool :=
  let n := nat_of_ascii c in
  (n =? 178)%nat || (n =? 179)%nat || (n =? 185)%nat.

Fixpoint all_chars (p : ascii -> bool) (s : string) : bool :=
  match s with
  | EmptyString => true
  | String c s' => p c && all_chars p s'
  end.

Definition isdigit (s : string) : bool :=
  match s with
  | EmptyString => false
  | _ => all_chars (fun c => is_decimal_char c || is_superscript_char c) s
  end.

Fixpoint digits_value (acc : Z) (s : string) : Z :=
  match s with
  | EmptyString => acc
  | String c s' => digits_value (10 * acc + (Z.of_nat (nat_of_ascii c) - 48)) s'
  end.

(** [str(n)], also what an f-string does with an integer. *)
Definition str_of_int (n : Z) : string :=
  NilZero.string_of_int (Z.to_int n).

(** The number of decimal digits a string starts with. *)
Fixpoint leading_digits (s : string) : N :=
  match s with
  | EmptyString => 0%N
  | String c s' => if is_decimal_char c then N.succ (leading_digits s') else 0%N
  end.

(** [sys.get_int_max_str_digits()], CPython 3.11 and later *)
Definition max_str_digits : N := 4300%N.

(** [int(s)] for the strings the normalizer passes to it (non-empty, only
    [isdigit] characters): the digits are counted first, and more than
    [max_str_digits] of them are refused. *)
Definition py_int (s : string) : result Z :=
  if (max_str_digits <? leading_digits s)%N
  then Raise (ValueError
                ("Exceeds the limit (4300 digits) for integer string conversion: value has "
                 ++ str_of_int (Z.of_N (leading_digits s))
                 ++ " digits; use sys.set_int_max_str_digits() to increase the limit")%string)
  else if all_chars is_decimal_char s
  then Ok (digits_value 0 s)
  else Raise (ValueError
                ("invalid literal for int() with base 10: '" ++ s ++ "'")%string).

(** ** ConfigNormalizer *)

Section LoopBody.

(** The function itself, for the recursive call of the loop body. *)
Variable recurse : value -> result value.

(** The body of [for k, v in data.items()]: what [data[k]] holds after
    it.  The recursive call changes the nested mapping in place. *)
Definition convert_entry (v : value) : result value :=
  match v with
  | VDict _ => recurse v
  | VStr s =>
      if isdigit s
      then rbind (py_int s) (fun n => Ok (VInt n))
      else Ok v
  | _ => Ok v
  end.

Fixpoint convert_items (kvs : list (string * value))
  : result (list (string * value)) :=
  match kvs with
  | [] => Ok []
  | (k, v) :: rest =>
      rbind (convert_entry v) (fun v' =>
      rbind (convert_items rest) (fun rest' =>
      Ok ((k, v') :: rest')))
  end.

End LoopBody.

Fixpoint convert_numeric_values (data : value) : result value :=
  match data with
  | VDict items =>
      rbind (convert_items convert_numeric_values items)
            (fun items' => Ok (VDict items'))
  | _ => Ok data
  end.

(** ** Timestamps *)

Record datetime : Type := {
  year : Z; month : Z; day : Z;
  hour : Z; minute : Z; second : Z; microsecond : Z
}.

Fixpoint zeros (n : nat) : string :=
  match n with
  | O => EmptyString
  | S n' => ("0" ++ zeros n')%string
  end.

(** ["%0wd" % n] for a non-negative [n] *)
Definition zfill (w : nat) (n : Z) : string :=
  let s := str_of_int n in (zeros (w - String.length s) ++ s)%string.

(** [datetime.isoformat()] of a naive datetime *)
Definition isoformat (t : datetime) : string :=
  (zfill 4 (year t) ++ "-" ++ zfill 2 (month t) ++ "-" ++ zfill 2 (day t)
   ++ "T" ++ zfill 2 (hour t) ++ ":" ++ zfill 2 (minute t) ++ ":"
   ++ zfill 2 (second t)
   ++ (if Z.eqb (microsecond t) 0 then EmptyString
       else "." ++ zfill 6 (microsecond t)))%string.

(** A BSON date keeps milliseconds. *)
Definition bson_datetime (t : datetime) : datetime :=
  {| year := year t; month := month t; day := day t;
     hour := hour t; minute := minute t; second := second t;
     microsecond := microsecond t / 1000 * 1000 |}.

(** ** The world around the program *)

(** A document of the collection; [rolled_back_from = None] is a document
    without that key.  The backend's [_id] is left out: nothing reads it. *)
Record Doc : Type := {
  version : Z;
  timestamp : datetime;
  config : value;
  rolled_back_from : option Z
}.

(** What opening and parsing a file gives. *)
Inductive file_state : Type :=
| Unreadable (e : exn)
| Parsed (v : value).

(** The integers BSON holds *)
Definition int64_min : Z := - 2 ^ 63.

Definition int64_max : Z := 2 ^ 63 - 1.

Definition fits_int64 (n : Z) : bool := (int64_min <=? n) && (n <=? int64_max).

(** A document the server's encoding accepts: every integer in it has 8
    bytes. *)
Fixpoint storable (v : value) : bool :=
  match v with
  | VInt n => fits_int64 n
  | VList items => forallb storable items
  | VDict items => forallb (fun kv => storable (snd kv)) items
  | _ => true
  end.

(** The 8 bytes of an integer *)
Definition low64 (n : Z) : Z := (n - int64_min) mod 2 ^ 64 + int64_min.

(** A document as the server holds it. *)
Fixpoint as_stored (v : value) : value :=
  match v with
  | VInt n => VInt (low64 n)
  | VList items => VList (map as_stored items)
  | VDict items => VDict (map (fun kv => (fst kv, as_stored (snd kv))) items)
  | _ => v
  end.

Definition stored_doc (d : Doc) : Doc :=
  {| version := version d; timestamp := timestamp d;
     config := as_stored (config d); rolled_back_from := rolled_back_from d |}.

Record World : Type := {
  documents : list Doc;           (* the state of the collection, in natural (insertion) order *)
  backend_up : nat -> bool;       (* does the n-th request reach the server *)
  requests : nat;                 (* requests issued so far *)
  clock : nat -> datetime;        (* what the n-th reading of the clock gives *)
  ticks : nat;                    (* readings taken so far *)
  fs : string -> file_state;      (* files, by path *)
  write_error : string -> option string; (* paths that cannot be opened for writing *)
  dump_error : string -> option (string * file_state);
                                  (* paths where writing fails after the file
                                     has been opened, and what is left there *)
  stdout : list string;           (* lines printed, oldest first *)
  abspath : string -> string      (* os.path.abspath *)
}.

(** The documents of the collection, as the server returns them. *)
Definition collection (w : World) : list Doc := map stored_doc (documents w).

Definition set_documents (w : World) (c : list Doc) : World :=
  {| documents := c; backend_up := backend_up w; requests := requests w;
     clock := clock w; ticks := ticks w; fs := fs w;
     write_error := write_error w; dump_error := dump_error w;
     stdout := stdout w; abspath := abspath w |}.

Definition set_requests (w : World) (n : nat) : World :=
  {| documents := documents w; backend_up := backend_up w; requests := n;
     clock := clock w; ticks := ticks w; fs := fs w;
     write_error := write_error w; dump_error := dump_error w;
     stdout := stdout w; abspath := abspath w |}.

Definition set_ticks (w : World) (n : nat) : World :=
  {| documents := documents w; backend_up := backend_up w;
     requests := requests w; clock := clock w; ticks := n; fs := fs w;
     write_error := write_error w; dump_error := dump_error w;
     stdout := stdout w; abspath := abspath w |}.

Definition set_fs (w : World) (f : string -> file_state) : World :=
  {| documents := documents w; backend_up := backend_up w;
     requests := requests w; clock := clock w; ticks := ticks w; fs := f;
     write_error := write_error w; dump_error := dump_error w;
     stdout := stdout w; abspath := abspath w |}.

Definition set_stdout (w : World) (o : list string) : World :=
  {| documents := documents w; backend_up := backend_up w;
     requests := requests w; clock := clock w; ticks := ticks w; fs := fs w;
     write_error := write_error w; dump_error := dump_error w;
     stdout := o; abspath := abspath w |}.

(** ** Computations *)

Definition M (A : Type) : Type := World -> result A * World.

Definition ret {A : Type} (a : A) : M A := fun w => (Ok a, w).

Definition bind {A B : Type} (m : M A) (k : A -> M B) : M B :=
  fun w =>
    match m w with
    | (Ok a, w') => k a w'
    | (Raise e, w') => (Raise e, w')
    end.

Notation "x <- m ;; k" := (bind m (fun x => k))
  (at level 61, m at next level, right associativity).
Notation "m ;; k" := (bind m (fun _ => k))
  (at level 61, right associativity).

(** [try: body except Exception as e: handler] *)
Definition try_except {A : Type} (body : M A) (handler : exn -> M A) : M A :=
  fun w =>
    match body w with
    | (Ok a, w') => (Ok a, w')
    | (Raise e, w') => handler e w'
    end.

Definition raise {A : Type} (e : exn) : M A := fun w => (Raise e, w).

Definition lift {A : Type} (r : result A) : M A := fun w => (r, w).

Definition print (line : string) : M unit :=
  fun w => (Ok tt, set_stdout w (stdout w ++ [line])).

(** [datetime.utcnow()] *)
Definition utcnow : M datetime :=
  fun w => (Ok (clock w (ticks w)), set_ticks w (S (ticks w))).

(** ** The collection *)

Definition backend_down_msg : string :=
  "localhost:27017: No servers found yet".

(** Every operation on the collection is one request to the server; a
    request that does not reach it raises. *)
Definition request : M unit :=
  fun w =>
    let w' := set_requests w (S (requests w)) in
    if backend_up w (requests w)
    then (Ok tt, w')
    else (Raise (ServerSelectionTimeoutError backend_down_msg), w').

Fixpoint max_by_version (best : Doc) (ds : list Doc) : Doc :=
  match ds with
  | [] => best
  | d :: ds' =>
      max_by_version (if version best <? version d then d else best) ds'
  end.

(** The document a descending sort on [version] puts first. *)
Definition latest (ds : list Doc) : option Doc :=
  match ds with
  | [] => None
  | d :: ds' => Some (max_by_version d ds')
  end.

Fixpoint insert_by_version (d : Doc) (ds : list Doc) : list Doc :=
  match ds with
  | [] => [d]
  | x :: ds' =>
      if version d <? version x then d :: ds
      else x :: insert_by_version d ds'
  end.

(** The documents in ascending order of [version]. *)
Definition sort_by_version (ds : list Doc) : list Doc :=
  fold_left (fun acc d => insert_by_version d acc) ds [].

Definition too_large_msg : string :=
  "MongoDB can only handle up to 8-byte ints".

(** [collection.find_one({"config": data})]; the filter is encoded once a
    server has been selected. *)
Definition find_one_config (data : value) : M (option Doc) :=
  request ;;
  fun w =>
    if storable data
    then (Ok (find (fun d => value_eqb (config d) data) (collection w)), w)
    else (Raise (OverflowError too_large_msg), w).

(** [collection.find_one({"version": version})] *)
Definition find_one_version (v : Z) : M (option Doc) :=
  request ;;
  fun w => (Ok (find (fun d => version d =? v) (collection w)), w).

(** [collection.find_one(sort=[("version", -1)])] *)
Definition find_one_latest : M (option Doc) :=
  request ;;
  fun w => (Ok (latest (collection w)), w).

(** [collection.find().sort("version", 1)], read to the end *)
Definition find_sorted : M (list Doc) :=
  request ;;
  fun w => (Ok (sort_by_version (collection w)), w).

(** [collection.insert_one(doc)]; the document is encoded once a server
    has been selected. *)
Definition insert_one (d : Doc) : M unit :=
  request ;;
  fun w =>
    if storable (config d)
    then
      (Ok tt,
       set_documents w
         (documents w ++
          [{| version := version d; timestamp := bson_datetime (timestamp d);
              config := config d; rolled_back_from := rolled_back_from d |}]))
    else (Raise (OverflowError too_large_msg), w).

(** ** Configuration *)

Definition CONFIG_FILE : string :=
  "C:\HeroVired\Assignments\Python_Assignments\auto_config_save\config.yaml".

Definition newline : string := String (ascii_of_nat 10) EmptyString.

(** ** Config handling *)

Definition read_config (file_path : string) : M (option value) :=
  fun w =>
    match fs w file_path with
    | Parsed (VDict items) => (Ok (Some (VDict items)), w)
    | Parsed _ =>
        (print "Error: YAML file must contain a dictionary at top level" ;;
         ret None) w
    | Unreadable e =>
        (print ("Error reading YAML file: " ++ str_of_exn e)%string ;;
         ret None) w
    end.

Fixpoint insert_by_key (kv : string * value) (l : list (string * value))
  : list (string * value) :=
  match l with
  | [] => [kv]
  | x :: l' =>
      if String.ltb (fst kv) (fst x) then kv :: l
      else x :: insert_by_key kv l'
  end.

(** A document as [yaml.dump] writes it: the entries of every mapping in
    the order of their keys ([sort_keys] is on by default). *)
Fixpoint sort_keys (v : value) : value :=
  match v with
  | VList items => VList (map sort_keys items)
  | VDict items =>
      VDict (fold_left (fun acc kv => insert_by_key kv acc)
                       (map (fun kv => (fst kv, sort_keys (snd kv))) items) [])
  | _ => v
  end.

(** [with open(path, 'w') as f: yaml.dump(data, f, ...)].  Opening the file
    empties it; when the writing fails after that, the file stays as the
    failure leaves it; otherwise it parses back to [data] with sorted
    keys. *)
Definition dump_to_file (path : string) (data : value) : M unit :=
  fun w =>
    match write_error w path with
    | Some msg => (Raise (OSError msg), w)
    | None =>
        match dump_error w path with
        | Some (msg, remains) =>
            (Raise (OSError msg),
             set_fs w (fun p => if String.eqb p path then remains else fs w p))
        | None =>
            (Ok tt,
             set_fs w (fun p => if String.eqb p path
                                then Parsed (sort_keys data) else fs w p))
        end
    end.

(** ** MongoDB handling *)

Definition already_exists_msg (v : Z) : string :=
  ("Configuration already exists in MongoDB (version " ++ str_of_int v
   ++ "). No new version created.")%string.

Definition saved_msg (v : Z) : string :=
  ("Configuration saved to MongoDB (version " ++ str_of_int v ++ ")")%string.

Definition save_error_msg (e : exn) : string :=
  ("Error saving to MongoDB: " ++ str_of_exn e)%string.

Definition fetch_error_msg (e : exn) : string :=
  ("Error fetching from MongoDB: " ++ str_of_exn e)%string.

(** [1 if not last_doc else last_doc['version'] + 1] *)
Definition next_version_of (last_doc : option Doc) : Z :=
  match last_doc with
  | None => 1
  | Some l => version l + 1
  end.

Definition save_to_mongo (data : value) : M (option Doc) :=
  try_except
    (existing_doc <- find_one_config data ;;
     match existing_doc with
     | Some e =>
         print (already_exists_msg (version e)) ;;
         ret None
     | None =>
         last_doc <- find_one_latest ;;
         let next_version := next_version_of last_doc in
         now <- utcnow ;;
         insert_one {| version := next_version; timestamp := now;
                       config := data; rolled_back_from := None |} ;;
         print (saved_msg next_version) ;;
         ret None
     end)
    (fun e => print (save_error_msg e) ;; ret None).

Definition fetch_latest_from_mongo : M value :=
  try_except
    (latest_doc <- find_one_latest ;;
     match latest_doc with
     | Some d =>
         ret (VDict [("version", VInt (version d));
                     ("timestamp", VStr (isoformat (timestamp d)));
                     ("config", config d)])
     | None => ret (VDict [])
     end)
    (fun e => print (fetch_error_msg e) ;; ret (VDict [])).

(** [doc.get("rolled_back_from", None)] *)
Definition get_rolled_back_from (d : Doc) : value :=
  match rolled_back_from d with
  | Some v => VInt v
  | None => VNone
  end.

Definition fetch_all_versions : M (list value) :=
  try_except
    (docs <- find_sorted ;;
     ret (map (fun doc =>
                 VDict [("version", VInt (version doc));
                        ("timestamp", VStr (isoformat (timestamp doc)));
                        ("config", config doc);
                        ("rolled_back_from", get_rolled_back_from doc)])
              docs))
    (fun e => print (fetch_error_msg e) ;; ret []).

Definition not_found_msg (v : Z) : string :=
  ("Version " ++ str_of_int v ++ " not found.")%string.

Definition rollback_complete_msg (v : Z) : string :=
  ("Rollback complete. Config.yaml updated to version " ++ str_of_int v
   ++ ".")%string.

Definition rolled_back_msg (v next_version : Z) : string :=
  ("Rolled back to version " ++ str_of_int v ++ " as new version "
   ++ str_of_int next_version ++ " and updated config.yaml")%string.

Definition rollback_to_version (v : Z) : M (bool * string) :=
  try_except
    (doc <- find_one_version v ;;
     match doc with
     | None => ret (false, not_found_msg v)
     | Some doc =>
         last_doc <- find_one_latest ;;
         let next_version := next_version_of last_doc in
         now <- utcnow ;;
         insert_one {| version := next_version; timestamp := now;
                       config := config doc; rolled_back_from := Some v |} ;;
         dump_to_file CONFIG_FILE (config doc) ;;
         print (rollback_complete_msg v) ;;
         ret (true, rolled_back_msg v next_version)
     end)
    (fun e => ret (false, str_of_exn e)).

(** ** Watchdog event handler *)

Record event : Type := { src_path : string }.

Definition detected_msg : string :=
  (newline ++ "Detected changes in " ++ CONFIG_FILE
   ++ ". Updating MongoDB...")%string.

Definition on_modified (ev : event) : M unit :=
  fun w =>
    if String.eqb (abspath w (src_path ev)) (abspath w CONFIG_FILE)
    then
      (print detected_msg ;;
       data <- read_config CONFIG_FILE ;;
       match data with
       | Some d =>
           if truthy d
           then
             d' <- lift (convert_numeric_values d) ;;
             save_to_mongo d' ;;
             ret tt
           else ret tt
       | None => ret tt
       end) w
    else (Ok tt, w).

(** ** Flask API *)

(** [jsonify] of what the helper returned *)
Definition get_latest_config : M value := fetch_latest_from_mongo.

Definition get_config_history : M value :=
  data <- fetch_all_versions ;; ret (VList data).

Definition rollback (v : Z) : M value :=
  r <- rollback_to_version v ;;
  ret (VDict [("success", VBool (fst r)); ("message", VStr (snd r))]).

(** ** Running several calls *)

(** One call after the other, each to completion. *)
Fixpoint run_all {A B : Type} (f : A -> M B) (xs : list A) : M (list B) :=
  match xs with
  | [] => ret []
  | x :: xs' => b <- f x ;; bs <- run_all f xs' ;; ret (b :: bs)
  end.

(** [save_to_mongo] cut at its requests to the server.  Between two requests
    of one call the server may serve a request of another call (the watchdog
    thread and the request threads of the web server share the collection);
    nothing in the source holds a lock or a transaction across them. *)
Inductive save_pc : Type :=
| AtFind (data : value)                     (* before the dedup query *)
| AtLatest (data : value)                   (* before the max-version query *)
| AtInsert (data : value) (next_version : Z) (* before the insert *)
| Finished.

Definition save_failed (e : exn) : M save_pc :=
  print (save_error_msg e) ;; ret Finished.

Definition save_step (pc : save_pc) : M save_pc :=
  match pc with
  | AtFind data =>
      try_except
        (existing_doc <- find_one_config data ;;
         match existing_doc with
         | Some e => print (already_exists_msg (version e)) ;; ret Finished
         | None => ret (AtLatest data)
         end)
        save_failed
  | AtLatest data =>
      try_except
        (last_doc <- find_one_latest ;;
         ret (AtInsert data (next_version_of last_doc)))
        save_failed
  | AtInsert data next_version =>
      try_except
        (now <- utcnow ;;
         insert_one {| version := next_version; timestamp := now;
                       config := data; rolled_back_from := None |} ;;
         print (saved_msg next_version) ;;
         ret Finished)
        save_failed
  | Finished => ret Finished
  end.

(** Two calls of [save_to_mongo] in flight; the schedule says which of the
    two has its next request served ([true]: the first). *)
Fixpoint interleave (schedule : list bool) (a b : save_pc)
  : M (save_pc * save_pc) :=
  match schedule with
  | [] => ret (a, b)
  | true :: rest => a' <- save_step a ;; interleave rest a' b
  | false :: rest => b' <- save_step b ;; interleave rest a b'
  end.

(** The schedules in which the first call has returned before the second
    one starts. *)
Definition one_after_the_other : list bool :=
  [true; true; true; false; false; false].

(** ** Vocabulary of the specification *)

(** The normalizer in the words of the specification: a string that is
    lexically an unsigned integer becomes that integer, nested mappings are
    descended into, everything else stays. *)
Definition unsigned_integer (s : string) : bool :=
  match s with
  | EmptyString => false
  | _ => all_chars is_decimal_char s
  end.

Fixpoint normalize (d : value) : value :=
  match d with
  | VDict items =>
      VDict (map (fun kv =>
                    (fst kv,
                     match snd kv with
                     | VDict _ => normalize (snd kv)
                     | VStr s =>
                         if unsigned_integer s
                         then VInt (digits_value 0 s)
                         else VStr s
                     | v => v
                     end)) items)
  | _ => d
  end.

(** A string [int] takes: decimal digits only, and no more of them than
    the limit. *)
Definition int_takes (s : string) : bool :=
  negb (max_str_digits <? leading_digits s)%N && all_chars is_decimal_char s.

(** No string that [int] would reject is up for conversion. *)
Fixpoint int_accepts (d : value) : bool :=
  match d with
  | VDict items =>
      forallb (fun kv =>
                 match snd kv with
                 | VDict _ => int_accepts (snd kv)
                 | VStr s => negb (isdigit s) || int_takes s
                 | _ => true
                 end) items
  | _ => true
  end.

Definition always_up (w : World) : Prop :=
  forall n : nat, backend_up w n = true.

(** [max(existing versions) + 1], 1 for a store without records *)
Definition next_version_spec (ds : list Doc) : Z :=
  match map version ds with
  | [] => 1
  | v :: vs => fold_left Z.max vs v + 1
  end.

(** [start; start + 1; ...], [n] numbers *)
Definition consecutive (start : Z) (n : nat) : list Z :=
  map (fun i => start + Z.of_nat i) (seq 0 n).

(** The records a run added to the collection. *)
Definition added (before after : World) : list Doc :=
  skipn (List.length (collection before)) (collection after).

(** The record [save_to_mongo] builds for new content. *)
Definition saved_record (w : World) (data : value) : Doc :=
  {| version := next_version_spec (collection w);
     timestamp := bson_datetime (clock w (ticks w));
     config := data; rolled_back_from := None |}.

(** The record [rollback_to_version] builds from the record it found. *)
Definition rollback_record (w : World) (target : Doc) (v : Z) : Doc :=
  {| version := next_version_spec (collection w);
     timestamp := bson_datetime (clock w (ticks w));
     config := config target; rolled_back_from := Some v |}.

Definition stored (w : World) (data : value) : Prop :=
  exists r, In r (collection w) /\ config r = data.

(** A save that hands the matching record back to its caller. *)
Definition save_returns_existing (w : World) (data : value) : Prop :=
  exists r, In r (collection w) /\ config r = data /\
            fst (save_to_mongo data w) = Ok (Some r).

(** Equality of documents as the specification defines it: recursive
    key and value equality, whatever the order of the keys of a mapping. *)
Fixpoint deep_equal (a b : value) {struct a} : bool :=
  match a, b with
  | VNone, VNone => true
  | VBool x, VBool y => Bool.eqb x y
  | VInt x, VInt y => Z.eqb x y
  | VStr x, VStr y => String.eqb x y
  | VList xs, VList ys =>
      (fix go (xs ys : list value) {struct xs} : bool :=
         match xs, ys with
         | [], [] => true
         | x :: xs', y :: ys' => deep_equal x y && go xs' ys'
         | _, _ => false
         end) xs ys
  | VDict xs, VDict ys =>
      Nat.eqb (List.length xs) (List.length ys) &&
      (fix each (xs : list (string * value)) {struct xs} : bool :=
         match xs with
         | [] => true
         | (k, x) :: xs' =>
             match find (fun ky => String.eqb (fst ky) k) ys with
             | Some ky => deep_equal x (snd ky)
             | None => false
             end && each xs'
         end) xs
  | _, _ => false
  end.

(** A save of a document that is deep-equal to a stored configuration adds
    no record. *)
Definition dedup_by_deep_equality (w : World) (data : value) : Prop :=
  (exists r, In r (collection w) /\ deep_equal (config r) data = true) ->
  collection (snd (save_to_mongo data w)) = collection w.

(** A document saved twice in a row into an empty store is there once. *)
Definition twice_leaves_one (w : World) (data : value) : Prop :=
  collection w = [] ->
  List.length
    (collection (snd ((save_to_mongo data ;; save_to_mongo data) w)))
  = 1%nat.

(** A call whose caller sees the failure. *)
Definition surfaces_error {A : Type} (m : M A) (w : World) : Prop :=
  exists e, fst (m w) = Raise e.

(** The server answers the next [i] requests and not the one after
    them. *)
Definition fails_at (w : World) (i : nat) : Prop :=
  (forall j, (j < i)%nat -> backend_up w (requests w + j) = true) /\
  backend_up w (requests w + i) = false.

(** Two saves in flight never leave two records with one version number. *)
Definition versions_never_shared (schedule : list bool) (w : World)
    (a b : value) : Prop :=
  NoDup (map version
           (added w (snd (interleave schedule (AtFind a) (AtFind b) w)))).

(** Two saves of one content in flight add at most one record. *)
Definition dedup_never_doubles (schedule : list bool) (w : World)
    (a : value) : Prop :=
  (List.length (added w (snd (interleave schedule (AtFind a) (AtFind a) w))) <= 1)%nat.

Fixpoint dict_get (key : string) (items : list (string * value))
  : option value :=
  match items with
  | [] => None
  | (k, v) :: rest => if String.eqb k key then Some v else dict_get key rest
  end.

(** [payload.get(key)] on a response *)
Definition payload_get (key : string) (payload : value) : option value :=
  match payload with
  | VDict items => dict_get key items
  | _ => None
  end.

(** ** Sample worlds *)

Definition sample_clock (n : nat) : datetime :=
  {| year := 2024; month := 5; day := 17; hour := 9; minute := 30;
     second := Z.of_nat n; microsecond := 123456 |}.

Definition fresh_world : World :=
  {| documents := []; backend_up := fun _ => true; requests := 0%nat;
     clock := sample_clock; ticks := 0%nat;
     fs := fun _ => Unreadable (OSError "No such file or directory");
     write_error := fun _ => None; dump_error := fun _ => None; stdout := [];
     abspath := fun p => p |}.

Definition doc_a1 : value := VDict [("a", VInt 1)].
Definition doc_a2 : value := VDict [("a", VInt 2)].
Definition doc_a3 : value := VDict [("a", VInt 3)].

(** The example of the specification: save a:1, save a:1, save a:2,
    rollback to 1. *)
Definition sample_history : M (bool * string) :=
  save_to_mongo doc_a1 ;; save_to_mongo doc_a1 ;; save_to_mongo doc_a2 ;;
  rollback_to_version 1.

Definition sample_world : World :=
  Eval vm_compute in snd (sample_history fresh_world).

(** The store after two saves of different content. *)
Definition two_saves_world : World :=
  Eval vm_compute in
    snd ((save_to_mongo doc_a1 ;; save_to_mongo doc_a2) fresh_world).

(** The store after one save. *)
Definition one_save_world : World :=
  Eval vm_compute in snd (save_to_mongo doc_a1 fresh_world).

(** The same two fields in two orders. *)
Definition doc_ab : value := VDict [("a", VInt 1); ("b", VInt 2)].
Definition doc_ba : value := VDict [("b", VInt 2); ("a", VInt 1)].

Definition ab_world : World :=
  Eval vm_compute in snd (save_to_mongo doc_ab fresh_world).

(** A document with an integer of 9 bytes. *)
Definition doc_big : value := VDict [("n", VInt (2 ^ 63))].

(** The same store with the server out of reach. *)
Definition unreachable (w : World) : World :=
  {| documents := documents w; backend_up := fun _ => false;
     requests := requests w; clock := clock w; ticks := ticks w;
     fs := fs w; write_error := write_error w; dump_error := dump_error w;
     stdout := stdout w;
     abspath := abspath w |}.

(** The same store with a server that answers [n] more requests and then
    goes out of reach. *)
Definition drops_after (n : nat) (w : World) : World :=
  {| documents := documents w;
     backend_up := fun k => (k <? requests w + n)%nat;
     requests := requests w; clock := clock w; ticks := ticks w;
     fs := fs w; write_error := write_error w; dump_error := dump_error w;
     stdout := stdout w;
     abspath := abspath w |}.





(** The same world with the given content in the configuration file. *)
Definition with_config_file (w : World) (content : file_state) : World :=
  set_fs w (fun p => if String.eqb p CONFIG_FILE then content else fs w p).

(** ** The rest of the program *)

(** The route [/config/all] *)
Definition view_all_configs : M value :=
  records <- fetch_all_versions ;; ret (VList records).

(** One entry of the list [fetch_all_versions] builds. *)
Definition history_payload (doc : Doc) : value :=
  VDict [("version", VInt (version doc));
         ("timestamp", VStr (isoformat (timestamp doc)));
         ("config", config doc);
         ("rolled_back_from", get_rolled_back_from doc)].

(** What the program is asked to do, from outside: a call of
    [save_to_mongo], a request to one of the routes, a notification of the
    observer, or somebody writing the configuration file. *)
Inductive action : Type :=
| Save (data : value)
| Rollback (v : Z)
| GetLatest
| GetHistory
| GetAll
| Modified (ev : event)
| Edit (content : file_state).

Definition perform (a : action) : M unit :=
  match a with
  | Save data => save_to_mongo data ;; ret tt
  | Rollback v => rollback v ;; ret tt
  | GetLatest => get_latest_config ;; ret tt
  | GetHistory => get_config_history ;; ret tt
  | GetAll => view_all_configs ;; ret tt
  | Modified ev => on_modified ev
  | Edit content => fun w => (Ok tt, with_config_file w content)
  end.

(** The world after a sequence of actions; an exception that escapes one
    of them ends that action only. *)
Definition after (acts : list action) (w : World) : World :=
  fold_left (fun w0 a => snd (perform a w0)) acts w.

Definition is_rollback (a : action) : bool :=
  match a with
  | Rollback _ => true
  | _ => false
  end.

(** The versions are 1, 2, ... in the order of insertion. *)
Definition linear (ds : list Doc) : Prop :=
  map version ds = consecutive 1 (List.length ds).

(** Every record made by a rollback names the version of a record inserted
    before it. *)
Definition origins_known (ds : list Doc) : Prop :=
  forall i r v,
    nth_error ds i = Some r ->
    rolled_back_from r = Some v ->
    exists j t, (j < i)%nat /\ nth_error ds j = Some t /\ version t = v.

Definition version_le (a b : Doc) : Prop := version a <= version b.

Definition version_lt (a b : Doc) : Prop := version a < version b.

(** No string is left that the loop body would convert. *)
Fixpoint settled (d : value) : bool :=
  match d with
  | VDict items =>
      forallb (fun kv =>
                 match snd kv with
                 | VDict _ => settled (snd kv)
                 | VStr s => negb (isdigit s)
                 | _ => true
                 end) items
  | _ => true
  end.

(** The world with the line of the handler printed. *)
Definition announced (w : World) : World :=
  set_stdout w (stdout w ++ [detected_msg]).

(** Two worlds that differ in what was printed only. *)
Definition same_but_stdout (w w' : World) : Prop :=
  collection w' = collection w /\ requests w' = requests w /\
  ticks w' = ticks w /\ fs w' = fs w /\ backend_up w' = backend_up w /\
  clock w' = clock w /\ write_error w' = write_error w /\
  dump_error w' = dump_error w /\ abspath w' = abspath w.

(** ** The first version of the program, [auto_config_save.py] *)

Module AutoConfigSave.

Definition CONFIG_FILE : string := "C:\auto_config_save\config.yaml".

Definition parser_results_msg : string :=
  (newline ++ "Configuration File Parser Results:" ++ newline)%string.

(** Returns what the file parses to, mapping or not; [VNone] is Python's
    [None]. *)
Definition read_config (file_path : string) : M value :=
  fun w =>
    match fs w file_path with
    | Parsed data => (print parser_results_msg ;; ret data) w
    | Unreadable e =>
        (print ("Error reading YAML file: " ++ str_of_exn e)%string ;;
         ret VNone) w
    end.

Definition save_to_mongo (data : value) : M (option Doc) :=
  try_except
    (last_doc <- find_one_latest ;;
     let next_version := next_version_of last_doc in
     now <- utcnow ;;
     insert_one {| version := next_version; timestamp := now;
                   config := data; rolled_back_from := None |} ;;
     print (saved_msg next_version) ;;
     ret None)
    (fun e => print (save_error_msg e) ;; ret None).

Definition fetch_all_versions : M (list value) :=
  try_except
    (docs <- find_sorted ;;
     ret (map (fun doc =>
                 VDict [("version", VInt (version doc));
                        ("timestamp", VStr (isoformat (timestamp doc)));
                        ("config", config doc)])
              docs))
    (fun e => print (fetch_error_msg e) ;; ret []).

Definition detected_msg : string :=
  (newline ++ "Detected changes in " ++ CONFIG_FILE
   ++ ". Updating MongoDB...")%string.

Definition on_modified (ev : event) : M unit :=
  fun w =>
    if String.eqb (abspath w (src_path ev)) (abspath w CONFIG_FILE)
    then
      (print detected_msg ;;
       data <- read_config CONFIG_FILE ;;
       if truthy data
       then
         data' <- lift (convert_numeric_values data) ;;
         save_to_mongo data' ;;
         ret tt
       else ret tt) w
    else (Ok tt, w).

End AutoConfigSave.

(** More sample worlds. *)

(** A flat list in the configuration file of the first version. *)
Definition list_in_old_file : World :=
  set_fs fresh_world
         (fun p => if String.eqb p AutoConfigSave.CONFIG_FILE
                   then Parsed (VList [VStr "a"; VStr "b"])
                   else fs fresh_world p).

(** The sample store with version 2 written to the configuration file by
    hand. *)
Definition edited_world : World :=
  with_config_file sample_world (Parsed doc_a2).

Definition config_event : event := {| src_path := CONFIG_FILE |}.

Definition is_notification (a : action) : bool :=
  match a with
  | Modified _ => true
  | _ => false
  end.

(** A configuration file with a superscript two for a value. *)
Definition superscript_doc : value :=
  VDict [("exponent", VStr (String (ascii_of_nat 178) EmptyString))].

Definition superscript_world : World :=
  with_config_file fresh_world (Parsed superscript_doc).

(** A configuration file with numbers written as strings. *)
Definition quoted_doc : value :=
  VDict [("port", VStr "8080"); ("name", VStr "main")].

Definition quoted_world : World :=
  with_config_file fresh_world (Parsed quoted_doc).

(** A configuration file with a number of twenty digits written as a
    string. *)
Definition long_number_doc : value :=
  VDict [("n", VStr "99999999999999999999")].

Definition long_number_world : World :=
  with_config_file fresh_world (Parsed long_number_doc).

(** ** Proof steps *)

(** Unfold a call down to the requests it makes. *)
Ltac fold_collection :=
  rewrite ?map_app; cbn [map];
  repeat match goal with
         | |- context [map stored_doc (documents ?w)] => fold (collection w)
         end.

Ltac step_program :=
  unfold collection;
  cbn -[already_exists_msg saved_msg save_error_msg fetch_error_msg
        not_found_msg rollback_complete_msg rolled_back_msg CONFIG_FILE
        backend_down_msg too_large_msg isoformat next_version_of latest find
        sort_by_version value_eqb storable stored_doc sort_keys];
  fold_collection.

Ltac run_program :=
  unfold save_to_mongo, rollback_to_version, fetch_latest_from_mongo,
    fetch_all_versions, save_step, save_failed;
  unfold find_one_config, find_one_version, find_one_latest, find_sorted,
    insert_one, dump_to_file;
  unfold request, utcnow, print;
  unfold try_except, bind, ret;
  step_program.

Ltac server_answers Hup := repeat (rewrite !Hup; step_program).

(** * Properties *)

(** ** Documents and their equality *)

Lemma value_ind_nested (P : value -> Prop) :
  P VNone ->
  (forall b, P (VBool b)) ->
  (forall n, P (VInt n)) ->
  (forall s, P (VStr s)) ->
  (forall l, Forall P l -> P (VList l)) ->
  (forall l, Forall (fun kv => P (snd kv)) l -> P (VDict l)) ->
  forall v, P v.
Proof.
  intros HN HB HI HS HL HD.
  fix IH 1.
  intros [ | b | n | s | l | l ].
  - exact HN.
  - apply HB.
  - apply HI.
  - apply HS.
  - apply HL. induction l as [ | x l IHl ]; constructor.
    + apply IH.
    + exact IHl.
  - apply HD. induction l as [ | [k x] l IHl ]; constructor.
    + apply IH.
    + exact IHl.
Qed.

Lemma value_eqb_eq (a b : value) : value_eqb a b = true <-> a = b.
Proof.
  revert b. induction a as [ | x | x | x | xs IH | xs IH ] using value_ind_nested;
    intros [ | y | y | y | ys | ys ]; simpl;
    try (split; [discriminate | intros E; discriminate E]);
    try (split; reflexivity).
  - rewrite Bool.eqb_true_iff. split; congruence.
  - rewrite Z.eqb_eq. split; congruence.
  - rewrite String.eqb_eq. split; congruence.
  - revert ys. induction IH as [ | x xs Hx _ IHxs ]; intros [ | y ys ].
    + split; reflexivity.
    + split; [discriminate | intros E; discriminate E].
    + split; [discriminate | intros E; discriminate E].
    + rewrite andb_true_iff, Hx. specialize (IHxs ys).
      split.
      * intros [-> H]. apply IHxs in H. congruence.
      * intros E. injection E as -> ->. split; [reflexivity | ].
        apply IHxs. reflexivity.
  - revert ys. induction IH as [ | [k x] xs Hx _ IHxs ]; intros [ | [l y] ys ].
    + split; reflexivity.
    + split; [discriminate | intros E; discriminate E].
    + split; [discriminate | intros E; discriminate E].
    + simpl in Hx. rewrite !andb_true_iff, Hx, String.eqb_eq.
      specialize (IHxs ys).
      split.
      * intros [[-> ->] H]. apply IHxs in H. congruence.
      * intros E. injection E as -> -> ->. repeat split.
        apply IHxs. reflexivity.
Qed.

Lemma value_eqb_refl (a : value) : value_eqb a a = true.
Proof. apply value_eqb_eq. reflexivity. Qed.

Lemma value_eqb_neq (a b : value) : a <> b -> value_eqb a b = false.
Proof.
  intros H. destruct (value_eqb a b) eqn:E; [ | reflexivity ].
  apply value_eqb_eq in E. contradiction.
Qed.

(** ** ConfigNormalizer *)

Lemma convert_dict_shape (items : list (string * value)) (d' : value) :
  convert_numeric_values (VDict items) = Ok d' ->
  exists items',
    d' = VDict items' /\
    convert_items convert_numeric_values items = Ok items'.
Proof.
  simpl. destruct (convert_items convert_numeric_values items) as [items' | e];
    simpl; intros E; [ | discriminate E ].
  injection E as <-. exists items'. split; reflexivity.
Qed.

(** A document the normalizer has produced is left as it is. *)
Lemma convert_fixes_its_results (d d' : value) :
  convert_numeric_values d = Ok d' -> convert_numeric_values d' = Ok d'.
Proof.
  revert d'.
  induction d as [ | b | n | s | l _ | l IH ] using value_ind_nested;
    intros d' E; try (injection E as <-; reflexivity).
  apply convert_dict_shape in E. destruct E as (items' & -> & E).
  simpl.
  enough (H : convert_items convert_numeric_values items' = Ok items')
    by (rewrite H; reflexivity).
  revert items' E.
  induction IH as [ | [k v] rest Hv _ IHrest ]; simpl; intros items' E.
  - injection E as <-. reflexivity.
  - destruct (convert_entry convert_numeric_values v) as [v' | e] eqn:Ev;
      simpl in E; [ | discriminate E ].
    destruct (convert_items convert_numeric_values rest) as [rest' | e] eqn:Er;
      simpl in E; [ | discriminate E ].
    injection E as <-. simpl.
    rewrite (IHrest rest' eq_refl). simpl in Hv.
    assert (Hv' : convert_entry convert_numeric_values v' = Ok v').
    { destruct v as [ | b | n | s | l | l ];
        try (injection Ev as <-; reflexivity).
      - unfold convert_entry in Ev.
        destruct (isdigit s) eqn:Hs.
        + destruct (py_int s) as [n | e]; simpl in Ev; [ | discriminate Ev ].
          injection Ev as <-. reflexivity.
        + injection Ev as <-. unfold convert_entry. rewrite Hs. reflexivity.
      - unfold convert_entry in Ev.
        destruct (convert_dict_shape _ _ Ev) as (items'' & -> & _).
        unfold convert_entry. apply Hv. exact Ev. }
    rewrite Hv'. reflexivity.
Qed.

(** C7. Normalization is idempotent: normalizing a document a second time
    gives what the first normalization gave, also when that is the error
    [int] raises on a digit character outside 0..9. *)
Theorem normalize_idempotent (d : value) :
  rbind (convert_numeric_values d) convert_numeric_values
  = convert_numeric_values d.
Proof.
  destruct (convert_numeric_values d) as [d' | e] eqn:E; simpl.
  - apply (convert_fixes_its_results d). exact E.
  - reflexivity.
Qed.

(** Sequences and scalars pass through unchanged, also at the top level. *)
Lemma convert_leaves_non_mappings (d : value) :
  (forall items, d <> VDict items) -> convert_numeric_values d = Ok d.
Proof.
  intros H. destruct d; try reflexivity. exfalso. apply (H items). reflexivity.
Qed.

Lemma unsigned_integer_isdigit (s : string) :
  unsigned_integer s = true -> isdigit s = true.
Proof.
  destruct s as [ | c s ]; [ discriminate | ].
  unfold unsigned_integer, isdigit.
  generalize (String c s). clear c s.
  induction s as [ | c s IH ]; simpl; [ reflexivity | ].
  intros H. apply andb_true_iff in H. destruct H as [-> H].
  simpl. apply IH. exact H.
Qed.

Lemma isdigit_decimal (s : string) :
  isdigit s = true -> all_chars is_decimal_char s = unsigned_integer s.
Proof. destruct s; [ discriminate | reflexivity ]. Qed.

Lemma py_int_takes (s : string) :
  int_takes s = true ->
  py_int s = Ok (digits_value 0 s) /\ all_chars is_decimal_char s = true.
Proof.
  unfold int_takes, py_int. intros H.
  apply andb_true_iff in H. destruct H as [Hlen Hdec].
  apply negb_true_iff in Hlen. rewrite Hlen, Hdec. split; reflexivity.
Qed.

Lemma py_int_refuses (s : string) :
  int_takes s = false -> exists msg, py_int s = Raise (ValueError msg).
Proof.
  unfold int_takes, py_int. intros H.
  destruct (max_str_digits <? leading_digits s)%N; [ eexists; reflexivity | ].
  simpl in H. rewrite H. eexists. reflexivity.
Qed.

(** The program normalizes as the specification says, on every document in
    which [int] accepts the strings that [isdigit] lets through. *)
Lemma convert_is_normalize (d : value) :
  int_accepts d = true -> convert_numeric_values d = Ok (normalize d).
Proof.
  induction d as [ | b | n | s | l _ | l IH ] using value_ind_nested;
    intros Hsafe; try reflexivity.
  simpl in Hsafe. simpl.
  enough (H : convert_items convert_numeric_values l
              = Ok (map (fun kv =>
                    (fst kv,
                     match snd kv with
                     | VDict _ => normalize (snd kv)
                     | VStr s =>
                         if unsigned_integer s
                         then VInt (digits_value 0 s)
                         else VStr s
                     | v => v
                     end)) l))
    by (rewrite H; reflexivity).
  induction IH as [ | [k v] rest Hv _ IHrest ]; simpl; [ reflexivity | ].
  simpl in Hsafe, Hv. apply andb_true_iff in Hsafe. destruct Hsafe as [Hv' Hrest].
  rewrite (IHrest Hrest).
  destruct v as [ | b | n | s | l | l ]; try reflexivity.
  - unfold convert_entry.
    destruct (isdigit s) eqn:Hs; simpl in Hv'.
    + destruct (py_int_takes s Hv') as [-> Hdec].
      rewrite <- (isdigit_decimal s Hs), Hdec. reflexivity.
    + destruct (unsigned_integer s) eqn:Hu; [ | reflexivity ].
      apply unsigned_integer_isdigit in Hu. congruence.
  - unfold convert_entry. rewrite (Hv Hv'). reflexivity.
Qed.

(** The example of the specification: the history after save a:1, save a:1,
    save a:2 and rollback to 1, and the answer of the failed rollback. *)
Example specification_example :
  map (fun d => (version d, config d, rolled_back_from d))
      (collection sample_world)
  = [(1, doc_a1, None); (2, doc_a2, None); (3, doc_a1, Some 1)] /\
  fst (sample_history fresh_world)
  = Ok (true, rolled_back_msg 1 3) /\
  fs sample_world CONFIG_FILE = Parsed doc_a1 /\
  fst (rollback_to_version 99 sample_world) = Ok (false, not_found_msg 99) /\
  collection (snd (rollback_to_version 99 sample_world))
  = collection sample_world.
Proof. repeat split; vm_compute; reflexivity. Qed.

Example normalize_example :
  convert_numeric_values
    (VDict [("port", VStr "8080");
            ("db", VDict [("retries", VStr "007"); ("name", VStr "main")]);
            ("hosts", VList [VStr "10"])])
  = Ok (VDict [("port", VInt 8080);
               ("db", VDict [("retries", VInt 7); ("name", VStr "main")]);
               ("hosts", VList [VStr "10"])]).
Proof. vm_compute. reflexivity. Qed.

(** [isdigit] lets the superscript two through and [int] rejects it: the
    normalizer raises. *)
Example normalize_raises :
  exists e,
    convert_numeric_values
      (VDict [("exponent", VStr (String (ascii_of_nat 178) EmptyString))])
    = Raise (ValueError e).
Proof. eexists. vm_compute. reflexivity. Qed.

(** ** Version numbers *)

Lemma max_by_version_fold (ds : list Doc) (d : Doc) :
  version (max_by_version d ds) = fold_left Z.max (map version ds) (version d).
Proof.
  revert d. induction ds as [ | x ds IH ]; intros d; simpl.
  - reflexivity.
  - rewrite IH. f_equal.
    destruct (Z.ltb_spec (version d) (version x)); lia.
Qed.

(** The number both [save_to_mongo] and [rollback_to_version] compute is
    the maximum of the stored versions plus one, and 1 for an empty store. *)
Lemma next_version_of_latest (ds : list Doc) :
  next_version_of (latest ds) = next_version_spec ds.
Proof.
  destruct ds as [ | d ds ]; simpl.
  - reflexivity.
  - unfold next_version_spec. simpl. rewrite max_by_version_fold. reflexivity.
Qed.

Lemma fold_max_ge (vs : list Z) (v : Z) : v <= fold_left Z.max vs v.
Proof.
  revert v. induction vs as [ | x vs IH ]; intros v; simpl.
  - lia.
  - specialize (IH (Z.max v x)). lia.
Qed.

Lemma fold_max_bound (vs : list Z) (v : Z) :
  forall x, In x vs -> x <= fold_left Z.max vs v.
Proof.
  revert v. induction vs as [ | y vs IH ]; intros v x Hx; simpl.
  - destruct Hx.
  - destruct Hx as [-> | Hx].
    + pose proof (fold_max_ge vs (Z.max v x)). lia.
    + apply IH. exact Hx.
Qed.

(** Every stored version is below the next one. *)
Lemma next_version_above (ds : list Doc) (d : Doc) :
  In d ds -> version d < next_version_spec ds.
Proof.
  unfold next_version_spec. destruct ds as [ | x ds ]; simpl.
  - intros [].
  - intros [-> | H].
    + pose proof (fold_max_ge (map version ds) (version d)). lia.
    + pose proof (fold_max_bound (map version ds) (version x) (version d)
                    (in_map version ds d H)). lia.
Qed.

(** Appending the record with the next version moves the next version up by
    one. *)
Lemma next_version_after_append (ds : list Doc) (r : Doc) :
  version r = next_version_spec ds ->
  next_version_spec (ds ++ [r]) = next_version_spec ds + 1.
Proof.
  unfold next_version_spec. destruct ds as [ | x ds ]; simpl.
  - intros ->. reflexivity.
  - intros Hr. rewrite map_app, fold_left_app. simpl. rewrite Hr.
    pose proof (fold_max_ge (map version ds) (version x)). lia.
Qed.

(** ** Documents as the server holds them *)

Lemma low64_fits (n : Z) : fits_int64 (low64 n) = true.
Proof.
  unfold fits_int64, low64, int64_min, int64_max.
  pose proof (Z.mod_pos_bound (n - - 2 ^ 63) (2 ^ 64) ltac:(lia)) as H.
  apply andb_true_iff. split; [ apply Z.leb_le | apply Z.leb_le ]; lia.
Qed.

Lemma low64_fixed (n : Z) : fits_int64 n = true -> low64 n = n.
Proof.
  unfold fits_int64, low64, int64_min, int64_max. intros H.
  apply andb_true_iff in H. destruct H as [H1 H2].
  apply Z.leb_le in H1. apply Z.leb_le in H2.
  rewrite Z.mod_small by lia. lia.
Qed.

Lemma as_stored_storable (v : value) : storable (as_stored v) = true.
Proof.
  induction v as [ | b | n | s | l IH | l IH ] using value_ind_nested;
    try reflexivity.
  - apply low64_fits.
  - simpl. induction IH as [ | x l Hx _ IHl ]; simpl; [ reflexivity | ].
    rewrite Hx. exact IHl.
  - simpl. induction IH as [ | [k x] l Hx _ IHl ]; simpl; [ reflexivity | ].
    simpl in Hx. rewrite Hx. exact IHl.
Qed.

Lemma as_stored_fixed (v : value) : storable v = true -> as_stored v = v.
Proof.
  induction v as [ | b | n | s | l IH | l IH ] using value_ind_nested;
    intros Hv; try reflexivity.
  - simpl. rewrite (low64_fixed n Hv). reflexivity.
  - simpl in Hv |- *. f_equal.
    induction IH as [ | x l Hx _ IHl ]; simpl in Hv |- *; [ reflexivity | ].
    apply andb_true_iff in Hv. destruct Hv as [H1 H2].
    rewrite (Hx H1), (IHl H2). reflexivity.
  - simpl in Hv |- *. f_equal.
    induction IH as [ | [k x] l Hx _ IHl ]; simpl in Hv |- *; [ reflexivity | ].
    apply andb_true_iff in Hv. destruct Hv as [H1 H2].
    simpl in Hx. rewrite (Hx H1), (IHl H2). reflexivity.
Qed.

Lemma stored_doc_fixed (d : Doc) :
  storable (config d) = true -> stored_doc d = d.
Proof.
  intros H. destruct d as [v t c r]. unfold stored_doc. simpl in *.
  rewrite (as_stored_fixed c H). reflexivity.
Qed.

(** Whatever the state, no document of the collection holds an integer
    beyond 8 bytes. *)
Lemma collection_storable (w : World) (d : Doc) :
  In d (collection w) -> storable (config d) = true.
Proof.
  unfold collection. rewrite in_map_iff. intros (x & <- & _).
  apply as_stored_storable.
Qed.

Lemma stored_is_storable (w : World) (data : value) :
  stored w data -> storable data = true.
Proof.
  intros (r & Hin & <-). apply (collection_storable w r Hin).
Qed.

Lemma find_config_storable (w : World) (data : value) (r : Doc) :
  find (fun d => value_eqb (config d) data) (collection w) = Some r ->
  storable data = true.
Proof.
  intros H. apply find_some in H. destruct H as [Hin Heq].
  apply value_eqb_eq in Heq. subst data. apply (collection_storable w r Hin).
Qed.

Lemma find_version_storable (w : World) (v : Z) (r : Doc) :
  find (fun d => version d =? v) (collection w) = Some r ->
  storable (config r) = true.
Proof.
  intros H. apply find_some in H. apply (collection_storable w r (proj1 H)).
Qed.

(** ** One call against a reachable server *)

Lemma find_config_none (ds : list Doc) (data : value) :
  (forall r, In r ds -> config r <> data) <->
  find (fun d => value_eqb (config d) data) ds = None.
Proof.
  split.
  - intros H. induction ds as [ | x ds IH ]; simpl; [ reflexivity | ].
    rewrite value_eqb_neq by (apply H; left; reflexivity).
    apply IH. intros r Hr. apply H. right. exact Hr.
  - intros H r Hr E.
    apply (find_none _ _ H) in Hr. rewrite E, value_eqb_refl in Hr.
    discriminate Hr.
Qed.

Lemma find_config_some (ds : list Doc) (data : value) :
  (exists r, In r ds /\ config r = data) ->
  exists r, find (fun d => value_eqb (config d) data) ds = Some r /\
            In r ds /\ config r = data.
Proof.
  intros (r & Hr & E).
  destruct (find (fun d => value_eqb (config d) data) ds) as [r' | ] eqn:F.
  - exists r'. apply find_some in F. destruct F as [F1 F2].
    apply value_eqb_eq in F2. repeat split; assumption.
  - apply (find_none _ _ F) in Hr. rewrite E, value_eqb_refl in Hr.
    discriminate Hr.
Qed.


Lemma find_version_some (ds : list Doc) (v : Z) :
  (exists r, In r ds /\ version r = v) ->
  exists r, find (fun d => version d =? v) ds = Some r /\
            In r ds /\ version r = v.
Proof.
  intros (r & Hr & E).
  destruct (find (fun d => version d =? v) ds) as [r' | ] eqn:F.
  - exists r'. apply find_some in F. destruct F as [F1 F2].
    apply Z.eqb_eq in F2. repeat split; assumption.
  - apply (find_none _ _ F) in Hr. simpl in Hr.
    rewrite E, Z.eqb_refl in Hr. discriminate Hr.
Qed.

(** What a save of content that is not in the store does. *)
Lemma save_new_content (w : World) (data : value) :
  always_up w ->
  storable data = true ->
  (forall r, In r (collection w) -> config r <> data) ->
  let w' := snd (save_to_mongo data w) in
  fst (save_to_mongo data w) = Ok None /\
  collection w' = collection w ++ [saved_record w data] /\
  stdout w' = stdout w ++ [saved_msg (next_version_spec (collection w))] /\
  requests w' = (requests w + 3)%nat /\
  ticks w' = S (ticks w) /\
  fs w' = fs w /\ backend_up w' = backend_up w /\ clock w' = clock w /\
  write_error w' = write_error w /\ abspath w' = abspath w.
Proof.
  intros Hup Hfit Hnew. apply find_config_none in Hnew.
  run_program. server_answers Hup. rewrite Hfit. step_program.
  rewrite Hnew. step_program.
  server_answers Hup.
  rewrite next_version_of_latest, stored_doc_fixed by exact Hfit.
  repeat split; try reflexivity. lia.
Qed.

(** What a save of content that some record already holds does. *)
Lemma save_known_content (w : World) (data : value) (r : Doc) :
  backend_up w (requests w) = true ->
  find (fun d => value_eqb (config d) data) (collection w) = Some r ->
  save_to_mongo data w
  = (Ok None,
     set_stdout (set_requests w (S (requests w)))
                (stdout w ++ [already_exists_msg (version r)])).
Proof.
  intros Hup Hfind. pose proof (find_config_storable w data r Hfind) as Hfit.
  run_program. rewrite Hup. step_program. rewrite Hfit. step_program.
  rewrite Hfind. reflexivity.
Qed.

(** What a rollback to a stored version does to the collection, whatever
    becomes of the file. *)
Lemma rollback_inserts (w : World) (v : Z) (target : Doc) :
  always_up w ->
  find (fun d => version d =? v) (collection w) = Some target ->
  let w' := snd (rollback_to_version v w) in
  collection w' = collection w ++ [rollback_record w target v] /\
  requests w' = (requests w + 3)%nat /\
  backend_up w' = backend_up w.
Proof.
  intros Hup Hfind.
  pose proof (find_version_storable w v target Hfind) as Hfit.
  run_program. server_answers Hup. rewrite Hfind. step_program.
  server_answers Hup. rewrite Hfit. step_program.
  rewrite next_version_of_latest.
  destruct (write_error w CONFIG_FILE);
    [ | destruct (dump_error w CONFIG_FILE) as [[msg remains] | ] ];
    step_program; rewrite stored_doc_fixed by exact Hfit;
    repeat split; try reflexivity; lia.
Qed.

Lemma added_after_append (w w' : World) (new : list Doc) :
  collection w' = collection w ++ new -> added w w' = new.
Proof.
  unfold added. intros ->.
  induction (collection w) as [ | x l IH ]; simpl; [ reflexivity | exact IH ].
Qed.

Lemma added_nothing (w w' : World) :
  collection w' = collection w -> added w w' = [].
Proof.
  intros H. apply added_after_append. rewrite app_nil_r. exact H.
Qed.

(** Whatever the server does, a save leaves the collection as it was or
    appends the one record with the next version. *)
Lemma save_adds_at_most_one (w : World) (data : value) :
  collection (snd (save_to_mongo data w)) = collection w \/
  collection (snd (save_to_mongo data w))
  = collection w ++ [saved_record w data].
Proof.
  run_program.
  destruct (backend_up w (requests w)); step_program; [ | left; reflexivity ].
  destruct (storable data) eqn:Hfit; step_program; [ | left; reflexivity ].
  destruct (find _ (collection w)); step_program; [ left; reflexivity | ].
  destruct (backend_up w (S (requests w))); step_program;
    [ | left; reflexivity ].
  destruct (backend_up w (S (S (requests w)))); step_program;
    [ | left; reflexivity ].
  right. rewrite next_version_of_latest, stored_doc_fixed by exact Hfit.
  reflexivity.
Qed.

(** The same for a rollback. *)
Lemma rollback_adds_at_most_one (w : World) (v : Z) :
  collection (snd (rollback_to_version v w)) = collection w \/
  exists target,
    find (fun d => version d =? v) (collection w) = Some target /\
    collection (snd (rollback_to_version v w))
    = collection w ++ [rollback_record w target v].
Proof.
  run_program.
  destruct (backend_up w (requests w)); step_program; [ | left; reflexivity ].
  destruct (find _ (collection w)) as [target | ] eqn:Hfind; step_program;
    [ | left; reflexivity ].
  pose proof (find_version_storable w v target Hfind) as Hfit.
  destruct (backend_up w (S (requests w))); step_program;
    [ | left; reflexivity ].
  destruct (backend_up w (S (S (requests w)))); step_program;
    [ | left; reflexivity ].
  rewrite Hfit. step_program.
  right. exists target. split; [ reflexivity | ].
  rewrite next_version_of_latest.
  destruct (write_error w CONFIG_FILE);
    [ | destruct (dump_error w CONFIG_FILE) as [[msg remains] | ] ];
    step_program; rewrite stored_doc_fixed by exact Hfit; reflexivity.
Qed.

Lemma run_all_cons {A B : Type} (f : A -> M B) (x : A) (xs : list A)
      (w : World) (b : B) :
  fst (f x w) = Ok b ->
  snd (run_all f (x :: xs) w) = snd (run_all f xs (snd (f x w))).
Proof.
  simpl. unfold bind, ret. destruct (f x w) as [r w1]. simpl. intros ->.
  destruct (run_all f xs w1) as [[bs | e] w2]; reflexivity.
Qed.

Lemma consecutive_succ (start : Z) (n : nat) :
  consecutive start (S n) = start :: consecutive (start + 1) n.
Proof.
  unfold consecutive. simpl. f_equal.
  - lia.
  - rewrite <- seq_shift, map_map. apply map_ext. intros i. lia.
Qed.

(** [save_to_mongo] has no [return] with a value: its caller gets [None]
    on every path. *)
Lemma save_returns_none (w : World) (data : value) :
  fst (save_to_mongo data w) = Ok None.
Proof.
  run_program.
  destruct (backend_up w (requests w)); step_program; [ | reflexivity ].
  destruct (storable data); step_program; [ | reflexivity ].
  destruct (find _ (collection w)); step_program; [ reflexivity | ].
  destruct (backend_up w (S (requests w))); step_program; [ | reflexivity ].
  destruct (backend_up w (S (S (requests w)))); reflexivity.
Qed.

(** Saving pairwise distinct documents that the server can encode, none of
    them in the store, appends one record per document, numbered from the
    next version on. *)
Lemma save_sequence (docs : list value) :
  forall w : World,
    always_up w ->
    NoDup docs ->
    forallb storable docs = true ->
    (forall d, In d docs -> ~ stored w d) ->
    exists new,
      collection (snd (run_all save_to_mongo docs w)) = collection w ++ new /\
      map config new = docs /\
      map version new
      = consecutive (next_version_spec (collection w)) (List.length docs).
Proof.
  induction docs as [ | d docs IH ]; intros w Hup Hnodup Hfit Hfresh.
  - exists []. simpl. rewrite app_nil_r. repeat split.
  - simpl in Hfit. apply andb_true_iff in Hfit. destruct Hfit as [Hd_fit Hfit].
    assert (Hd : forall r, In r (collection w) -> config r <> d).
    { intros r Hr E. apply (Hfresh d); [ left; reflexivity | ].
      exists r. split; assumption. }
    destruct (save_new_content w d Hup Hd_fit Hd)
      as (Hret & Hcoll & _ & _ & _ & _ & Hback & _).
    rewrite (run_all_cons save_to_mongo d docs w None Hret).
    set (w1 := snd (save_to_mongo d w)) in *.
    inversion Hnodup as [ | ? ? Hnotin Hnodup' ]; subst.
    destruct (IH w1) as (new & Hnew & Hcfg & Hver).
    + intros n. rewrite Hback. apply Hup.
    + exact Hnodup'.
    + exact Hfit.
    + intros d' Hd' (r & Hr & E). rewrite Hcoll in Hr.
      apply in_app_or in Hr. destruct Hr as [Hr | [<- | []]].
      * apply (Hfresh d'); [ right; exact Hd' | ].
        exists r. split; assumption.
      * simpl in E. subst d'. contradiction.
    + exists (saved_record w d :: new). rewrite Hnew, Hcoll, <- app_assoc.
      repeat split.
      * simpl. rewrite Hcfg. reflexivity.
      * simpl List.length. rewrite consecutive_succ. simpl. f_equal.
        rewrite Hver, Hcoll. f_equal.
        apply next_version_after_append. reflexivity.
Qed.

(** Whatever the documents are and whatever the server does, the records a
    sequence of saves adds are numbered consecutively from the next
    version on. *)
Lemma save_sequence_numbered (docs : list value) :
  forall w : World,
    exists new,
      collection (snd (run_all save_to_mongo docs w)) = collection w ++ new /\
      map version new
      = consecutive (next_version_spec (collection w)) (List.length new).
Proof.
  induction docs as [ | d docs IH ]; intros w.
  - exists []. simpl. rewrite app_nil_r. split; reflexivity.
  - rewrite (run_all_cons save_to_mongo d docs w None (save_returns_none w d)).
    destruct (IH (snd (save_to_mongo d w))) as (new & Hnew & Hver).
    destruct (save_adds_at_most_one w d) as [Hcoll | Hcoll];
      rewrite Hcoll in Hnew, Hver.
    + exists new. split; assumption.
    + exists (saved_record w d :: new). rewrite <- app_assoc in Hnew.
      split; [ exact Hnew | ].
      simpl List.length. rewrite consecutive_succ. simpl. f_equal.
      rewrite Hver. f_equal. apply next_version_after_append. reflexivity.
Qed.

(** C1. The version a save or a rollback gives to the record it creates is
    the largest stored version plus one, and 1 in an empty store: a save
    or a rollback adds nothing or one record with that version; with the
    server reachable and the next version within 8 bytes, a save of new
    content that the server can encode and a rollback to a stored version
    do add that record; and the records a sequence of saves adds are
    numbered consecutively, whatever the documents are, one record per
    document when the documents are pairwise distinct, new to the store
    and encodable. *)
Theorem versions_are_sequential :
  (forall w data,
      let new := added w (snd (save_to_mongo data w)) in
      new = [] \/ map version new = [next_version_spec (collection w)]) /\
  (forall w v,
      let new := added w (snd (rollback_to_version v w)) in
      new = [] \/ map version new = [next_version_spec (collection w)]) /\
  (forall w, collection w = [] -> next_version_spec (collection w) = 1) /\
  (forall w d, In d (collection w) ->
               version d < next_version_spec (collection w)) /\
  (forall w data,
      always_up w ->
      storable data = true ->
      next_version_spec (collection w) <= int64_max ->
      ~ stored w data ->
      map version (added w (snd (save_to_mongo data w)))
      = [next_version_spec (collection w)]) /\
  (forall w v,
      always_up w ->
      next_version_spec (collection w) <= int64_max ->
      (exists r, In r (collection w) /\ version r = v) ->
      map version (added w (snd (rollback_to_version v w)))
      = [next_version_spec (collection w)]) /\
  (forall w docs,
      let new := added w (snd (run_all save_to_mongo docs w)) in
      map version new
      = consecutive (next_version_spec (collection w)) (List.length new)) /\
  (forall w docs,
      always_up w ->
      NoDup docs ->
      forallb storable docs = true ->
      next_version_spec (collection w) + Z.of_nat (List.length docs)
      <= int64_max + 1 ->
      (forall d, In d docs -> ~ stored w d) ->
      map version (added w (snd (run_all save_to_mongo docs w)))
      = consecutive (next_version_spec (collection w)) (List.length docs)).
Proof.
  split; [ | split; [ | split; [ | split; [ | split; [ | split; [ | split ]]]]]].
  - intros w data new. subst new.
    destruct (save_adds_at_most_one w data) as [H | H].
    + left. apply added_nothing. exact H.
    + right. rewrite (added_after_append _ _ _ H). reflexivity.
  - intros w v new. subst new.
    destruct (rollback_adds_at_most_one w v) as [H | (target & _ & H)].
    + left. apply added_nothing. exact H.
    + right. rewrite (added_after_append _ _ _ H). reflexivity.
  - intros w ->. reflexivity.
  - intros w d. apply next_version_above.
  - intros w data Hup Hfit _ Hnew.
    assert (Hd : forall r, In r (collection w) -> config r <> data).
    { intros r Hr E. apply Hnew. exists r. split; assumption. }
    destruct (save_new_content w data Hup Hfit Hd) as (_ & Hcoll & _).
    rewrite (added_after_append _ _ _ Hcoll). reflexivity.
  - intros w v Hup _ Hex. apply find_version_some in Hex.
    destruct Hex as (target & Hfind & _).
    destruct (rollback_inserts w v target Hup Hfind) as (Hcoll & _).
    rewrite (added_after_append _ _ _ Hcoll). reflexivity.
  - intros w docs new. subst new.
    destruct (save_sequence_numbered docs w) as (new & Hnew & Hver).
    rewrite (added_after_append _ _ _ Hnew). exact Hver.
  - intros w docs Hup Hnodup Hfit _ Hfresh.
    destruct (save_sequence docs w Hup Hnodup Hfit Hfresh)
      as (new & Hnew & _ & Hver).
    rewrite (added_after_append _ _ _ Hnew). exact Hver.
Qed.

Lemma versions_are_sequential_witness :
  collection fresh_world = [] /\
  always_up fresh_world /\
  NoDup [doc_a1; doc_a2; doc_a3] /\
  forallb storable [doc_a1; doc_a2; doc_a3] = true /\
  (forall d, In d [doc_a1; doc_a2; doc_a3] -> ~ stored fresh_world d) /\
  next_version_spec (collection fresh_world) = 1 /\
  map version
      (added fresh_world
             (snd (run_all save_to_mongo [doc_a1; doc_a2; doc_a3] fresh_world)))
  = consecutive (next_version_spec (collection fresh_world)) 3 /\
  always_up two_saves_world /\
  (exists r, In r (collection two_saves_world) /\ version r = 1) /\
  map version (added two_saves_world
                     (snd (rollback_to_version 1 two_saves_world)))
  = [next_version_spec (collection two_saves_world)] /\
  next_version_spec (collection two_saves_world) = 3 /\
  storable doc_a3 = true /\
  ~ stored two_saves_world doc_a3 /\
  map version (added two_saves_world
                     (snd (save_to_mongo doc_a3 two_saves_world)))
  = [next_version_spec (collection two_saves_world)].
Proof.
  assert (Hempty : collection fresh_world = []) by reflexivity.
  assert (Hup : always_up fresh_world) by (intros n; reflexivity).
  assert (Hnodup : NoDup [doc_a1; doc_a2; doc_a3]).
  { repeat constructor; simpl; intuition discriminate. }
  assert (Hfit : forallb storable [doc_a1; doc_a2; doc_a3] = true)
    by reflexivity.
  assert (Hbound : next_version_spec (collection fresh_world)
                   + Z.of_nat (List.length [doc_a1; doc_a2; doc_a3])
                   <= int64_max + 1) by (vm_compute; discriminate).
  assert (Hfresh : forall d, In d [doc_a1; doc_a2; doc_a3] ->
                             ~ stored fresh_world d).
  { intros d _ (r & Hr & _). destruct Hr. }
  assert (Hup2 : always_up two_saves_world) by (intros n; reflexivity).
  assert (Hex : exists r, In r (collection two_saves_world) /\ version r = 1).
  { eexists. split; [ left; reflexivity | reflexivity ]. }
  assert (Hfit3 : storable doc_a3 = true) by reflexivity.
  assert (Hbound3 : next_version_spec (collection two_saves_world)
                    <= int64_max) by (vm_compute; discriminate).
  assert (Hnew3 : ~ stored two_saves_world doc_a3).
  { intros (r & [<- | [<- | []]] & E); discriminate E. }
  destruct versions_are_sequential
    as (_ & _ & Hone & _ & Hsave & Hroll & _ & Hseq).
  split; [ exact Hempty | ].
  split; [ exact Hup | ].
  split; [ exact Hnodup | ].
  split; [ exact Hfit | ].
  split; [ exact Hfresh | ].
  split; [ exact (Hone fresh_world Hempty) | ].
  split; [ exact (Hseq fresh_world [doc_a1; doc_a2; doc_a3]
                       Hup Hnodup Hfit Hbound Hfresh) | ].
  split; [ exact Hup2 | ].
  split; [ exact Hex | ].
  split; [ exact (Hroll two_saves_world 1 Hup2 Hbound3 Hex) | ].
  split; [ reflexivity | ].
  split; [ exact Hfit3 | ].
  split; [ exact Hnew3 | ].
  exact (Hsave two_saves_world doc_a3 Hup2 Hfit3 Hbound3 Hnew3).
Defined.

(** ** Deduplication *)

(** A save of a document the server cannot encode leaves the collection
    as it was. *)
Lemma save_unstorable (w : World) (data : value) :
  storable data = false ->
  collection (snd (save_to_mongo data w)) = collection w.
Proof.
  intros Hfit. run_program.
  destruct (backend_up w (requests w)); step_program; [ | reflexivity ].
  rewrite Hfit. reflexivity.
Qed.

(** C2, as stated, fails, in three ways.  The store holds a record with
    the content saved, the server is reachable, and the call does not
    return that record.  The store holds the same fields in another order,
    which is equal content for the specification, and the save adds a
    record.  A document with an integer beyond 8 bytes, saved twice in a
    row into an empty store, is not there at all. *)
Lemma save_hands_back_nothing :
  (always_up one_save_world /\ stored one_save_world doc_a1 /\
   ~ save_returns_existing one_save_world doc_a1) /\
  (always_up ab_world /\
   (exists r, In r (collection ab_world) /\
              deep_equal (config r) doc_ba = true) /\
   ~ dedup_by_deep_equality ab_world doc_ba) /\
  (always_up fresh_world /\ collection fresh_world = [] /\
   ~ twice_leaves_one fresh_world doc_big).
Proof.
  split; [ | split ].
  - split; [ | split ].
    + intros n. reflexivity.
    + eexists. split; [ left; reflexivity | reflexivity ].
    + intros (r & _ & _ & H). rewrite save_returns_none in H. discriminate H.
  - assert (Hex : exists r, In r (collection ab_world) /\
                            deep_equal (config r) doc_ba = true).
    { eexists. split; [ left; reflexivity | reflexivity ]. }
    split; [ | split ].
    + intros n. reflexivity.
    + exact Hex.
    + intros H. specialize (H Hex).
      apply (f_equal (@List.length Doc)) in H.
      vm_compute in H. discriminate H.
  - split; [ | split ].
    + intros n. reflexivity.
    + reflexivity.
    + intros H. specialize (H eq_refl). vm_compute in H. discriminate H.
Qed.

(** C2, amended. Saving content that some record of the store holds,
    field for field in the same order, anywhere in the history, adds no
    record and writes nothing: the call prints the version of the first
    such record and returns [None].  Saving the same content twice in a
    row adds no second record: an empty store then holds one record when
    the server can encode the document, and none when it cannot. *)
Theorem save_deduplicates (w : World) (data : value) (Hup : always_up w) :
  (stored w data ->
   exists r,
     In r (collection w) /\ config r = data /\
     save_to_mongo data w
     = (Ok None,
        set_stdout (set_requests w (S (requests w)))
                   (stdout w ++ [already_exists_msg (version r)])) /\
     collection (snd (save_to_mongo data w)) = collection w /\
     fs (snd (save_to_mongo data w)) = fs w) /\
  (let twice := save_to_mongo data ;; save_to_mongo data in
   collection (snd (twice w)) = collection (snd (save_to_mongo data w)) /\
   (collection w = [] -> storable data = true ->
    List.length (collection (snd (twice w))) = 1%nat) /\
   (storable data = false -> collection (snd (twice w)) = collection w)).
Proof.
  assert (Hknown : forall w0, always_up w0 -> stored w0 data ->
            exists r, In r (collection w0) /\ config r = data /\
              save_to_mongo data w0
              = (Ok None,
                 set_stdout (set_requests w0 (S (requests w0)))
                            (stdout w0 ++ [already_exists_msg (version r)]))).
  { intros w0 Hup0 Hst. apply find_config_some in Hst.
    destruct Hst as (r & Hfind & Hin & Hcfg).
    exists r. repeat split; try assumption.
    apply save_known_content; [ apply Hup0 | exact Hfind ]. }
  split.
  - intros Hst. destruct (Hknown w Hup Hst) as (r & Hin & Hcfg & Hrun).
    exists r. rewrite Hrun. repeat split; assumption.
  - assert (Hsecond : forall w1, fst (save_to_mongo data w) = Ok None ->
              snd (save_to_mongo data w) = w1 ->
              snd ((save_to_mongo data ;; save_to_mongo data) w)
              = snd (save_to_mongo data w1)).
    { intros w1 H1 H2. unfold bind.
      destruct (save_to_mongo data w) as [r0 w0]. simpl in H1, H2.
      subst. reflexivity. }
    cbv zeta.
    rewrite (Hsecond _ (save_returns_none w data) eq_refl).
    destruct (storable data) eqn:Hfit.
    + destruct (find (fun d => value_eqb (config d) data) (collection w))
        as [r | ] eqn:Hfind.
      * rewrite (save_known_content w data r (Hup _) Hfind). simpl snd.
        set (w1 := set_stdout (set_requests w (S (requests w)))
                              (stdout w ++ [already_exists_msg (version r)])).
        assert (Hup1 : backend_up w1 (requests w1) = true) by apply Hup.
        assert (Hf1 : find (fun d => value_eqb (config d) data)
                        (collection w1) = Some r) by exact Hfind.
        rewrite (save_known_content w1 data r Hup1 Hf1).
        split; [ reflexivity | ]. split; [ | discriminate ].
        intros Hempty _. change (collection w1) with (collection w) in Hf1.
        rewrite Hempty in Hf1. discriminate Hf1.
      * pose proof (proj2 (find_config_none _ _) Hfind) as Hnew.
        destruct (save_new_content w data Hup Hfit Hnew)
          as (_ & Hcoll & _ & _ & _ & _ & Hback & _).
        set (w1 := snd (save_to_mongo data w)) in *.
        assert (Hup1 : always_up w1) by (intros n; rewrite Hback; apply Hup).
        assert (Hst1 : stored w1 data).
        { exists (saved_record w data). split; [ | reflexivity ].
          rewrite Hcoll. apply in_or_app. right. left. reflexivity. }
        destruct (Hknown w1 Hup1 Hst1) as (r & _ & _ & Hrun).
        rewrite Hrun. simpl snd.
        change (collection (set_stdout (set_requests w1 (S (requests w1)))
                              (stdout w1 ++ [already_exists_msg (version r)])))
          with (collection w1).
        split; [ reflexivity | ]. split; [ | discriminate ].
        intros Hempty _. rewrite Hcoll, Hempty. reflexivity.
    + rewrite (save_unstorable _ data Hfit).
      split; [ reflexivity | ]. split; [ discriminate | ].
      intros _. apply (save_unstorable w data Hfit).
Qed.

Lemma save_deduplicates_witness :
  always_up two_saves_world /\ stored two_saves_world doc_a1 /\
  collection (snd (save_to_mongo doc_a1 two_saves_world))
  = collection two_saves_world /\
  (exists r,
      version r = 1 /\
      stdout (snd (save_to_mongo doc_a1 two_saves_world))
      = stdout two_saves_world ++ [already_exists_msg (version r)]) /\
  always_up fresh_world /\ collection fresh_world = [] /\
  storable doc_a1 = true /\
  List.length
    (collection (snd ((save_to_mongo doc_a1 ;; save_to_mongo doc_a1)
                        fresh_world))) = 1%nat /\
  storable doc_big = false /\
  collection (snd ((save_to_mongo doc_big ;; save_to_mongo doc_big)
                     fresh_world)) = collection fresh_world.
Proof.
  assert (Hup : always_up two_saves_world) by (intros n; reflexivity).
  assert (Hst : stored two_saves_world doc_a1).
  { eexists. split; [ left; reflexivity | reflexivity ]. }
  assert (Hup0 : always_up fresh_world) by (intros n; reflexivity).
  assert (Hempty : collection fresh_world = []) by reflexivity.
  assert (Hfit : storable doc_a1 = true) by reflexivity.
  assert (Hbig : storable doc_big = false) by reflexivity.
  destruct (save_deduplicates two_saves_world doc_a1 Hup) as (Hknown & _).
  destruct (Hknown Hst) as (r & Hin & Hcfg & Hrun & Hcoll & _).
  destruct (save_deduplicates fresh_world doc_a1 Hup0) as (_ & _ & Hone & _).
  destruct (save_deduplicates fresh_world doc_big Hup0) as (_ & _ & _ & Hnone).
  split; [ exact Hup | ].
  split; [ exact Hst | ].
  split; [ exact Hcoll | ].
  split.
  { exists r. split.
    - destruct Hin as [<- | [<- | []]]; [ reflexivity | discriminate Hcfg ].
    - rewrite Hrun. reflexivity. }
  split; [ exact Hup0 | ].
  split; [ exact Hempty | ].
  split; [ exact Hfit | ].
  split; [ exact (Hone Hempty Hfit) | ].
  split; [ exact Hbig | exact (Hnone Hbig) ].
Defined.

(** The equality filter compares fields in order: the same fields written
    in another order are new content and get a version of their own. *)
Example reordered_keys_are_new_content :
  let ab := VDict [("a", VInt 1); ("b", VInt 2)] in
  let ba := VDict [("b", VInt 2); ("a", VInt 1)] in
  map version
      (collection (snd ((save_to_mongo ab ;; save_to_mongo ba) fresh_world)))
  = [1; 2].
Proof. vm_compute. reflexivity. Qed.

(** ** Rollback *)

(** C3. A rollback to a stored version, with the server reachable, appends
    exactly one record, whatever the content of the latest record is and
    whatever becomes of the file: the new record carries the configuration
    of the record found for that version, names that version as its origin
    and takes the next version, the number a save would take. *)
Theorem rollback_creates_version (w : World) (v : Z) :
  always_up w ->
  (exists r, In r (collection w) /\ version r = v) ->
  exists target new,
    In target (collection w) /\ version target = v /\
    collection (snd (rollback_to_version v w)) = collection w ++ [new] /\
    config new = config target /\
    rolled_back_from new = Some v /\
    version new = next_version_spec (collection w) /\
    forall data, version new = version (saved_record w data).
Proof.
  intros Hup Hex. apply find_version_some in Hex.
  destruct Hex as (target & Hfind & Hin & Hv).
  destruct (rollback_inserts w v target Hup Hfind) as (Hcoll & _).
  exists target, (rollback_record w target v).
  repeat split; assumption.
Qed.

(** A rollback to the latest version itself: the content of the new record
    is the content of the current latest record. *)
Lemma rollback_creates_version_witness :
  always_up sample_world /\
  (exists r, In r (collection sample_world) /\ version r = 3) /\
  exists target new,
    latest (collection sample_world) = Some target /\
    collection (snd (rollback_to_version 3 sample_world))
    = collection sample_world ++ [new] /\
    config new = config target /\
    rolled_back_from new = Some 3 /\
    version new = 4.
Proof.
  assert (Hup : always_up sample_world) by (intros n; reflexivity).
  assert (Hex : exists r, In r (collection sample_world) /\ version r = 3).
  { eexists. split; [ right; right; left; reflexivity | reflexivity ]. }
  split; [ exact Hup | ].
  split; [ exact Hex | ].
  destruct (rollback_creates_version sample_world 3 Hup Hex)
    as (target & new & Hin & Hv & Hcoll & Hcfg & Hfrom & Hnext & _).
  exists target, new.
  split.
  - destruct Hin as [<- | [<- | [<- | []]]]; try discriminate Hv. reflexivity.
  - split; [ exact Hcoll | ].
    split; [ exact Hcfg | ].
    split; [ exact Hfrom | exact Hnext ].
Defined.





(** ** A server out of reach *)

(** C6, as stated, fails: with the server out of reach none of the three
    calls raises, and what each returns is what it returns for a reachable,
    empty store. *)
Lemma storage_failure_looks_normal :
  let w := unreachable sample_world in
  (forall n, backend_up w n = false) /\
  ~ surfaces_error (save_to_mongo doc_a3) w /\
  ~ surfaces_error fetch_latest_from_mongo w /\
  ~ surfaces_error fetch_all_versions w /\
  fst (fetch_latest_from_mongo w) = fst (fetch_latest_from_mongo fresh_world) /\
  fst (fetch_all_versions w) = fst (fetch_all_versions fresh_world).
Proof.
  cbv zeta.
  split; [ intros n; reflexivity | ].
  split; [ intros (e & H); vm_compute in H; discriminate H | ].
  split; [ intros (e & H); vm_compute in H; discriminate H | ].
  split; [ intros (e & H); vm_compute in H; discriminate H | ].
  split; vm_compute; reflexivity.
Qed.

Lemma fails_at_requests (w : World) (i : nat) :
  fails_at w i ->
  match i with
  | 0%nat => backend_up w (requests w) = false
  | 1%nat => backend_up w (requests w) = true /\
             backend_up w (S (requests w)) = false
  | 2%nat => backend_up w (requests w) = true /\
             backend_up w (S (requests w)) = true /\
             backend_up w (S (S (requests w))) = false
  | _ => backend_up w (requests w) = true /\
         backend_up w (S (requests w)) = true /\
         backend_up w (S (S (requests w))) = true
  end.
Proof.
  intros [Hbefore Hat].
  assert (H0 : (0 < i)%nat -> backend_up w (requests w) = true).
  { intros Hi. rewrite <- (Nat.add_0_r (requests w)). apply Hbefore, Hi. }
  assert (H1 : (1 < i)%nat -> backend_up w (S (requests w)) = true).
  { intros Hi. rewrite <- (Nat.add_1_r (requests w)). apply Hbefore, Hi. }
  assert (H2 : (2 < i)%nat -> backend_up w (S (S (requests w))) = true).
  { intros Hi. replace (S (S (requests w))) with (requests w + 2)%nat by lia.
    apply Hbefore, Hi. }
  destruct i as [ | [ | [ | i ] ] ].
  - rewrite Nat.add_0_r in Hat. exact Hat.
  - rewrite Nat.add_1_r in Hat. split; [ apply H0; lia | exact Hat ].
  - replace (requests w + 2)%nat with (S (S (requests w))) in Hat by lia.
    split; [ apply H0; lia | ]. split; [ apply H1; lia | exact Hat ].
  - split; [ apply H0; lia | ]. split; [ apply H1; lia | apply H2; lia ].
Qed.

(** C6, amended. When a request to the server fails, [save_to_mongo],
    [fetch_latest_from_mongo] and [fetch_all_versions] handle the error
    themselves: each prints a line with the text of the error, leaves the
    collection alone and returns [None], the empty object or the empty
    list.  Nothing is retried: the request that fails is the last one of
    the call, be it the first, or the second or third of the three a save
    of new content makes. *)
Theorem storage_failure_is_logged (w : World) (data : value) (i : nat) :
  fails_at w i ->
  let e := ServerSelectionTimeoutError backend_down_msg in
  let after line :=
    set_stdout (set_requests w (S (requests w))) (stdout w ++ [line]) in
  let w' := snd (save_to_mongo data w) in
  (i = 0%nat ->
   save_to_mongo data w = (Ok None, after (save_error_msg e)) /\
   fetch_latest_from_mongo w = (Ok (VDict []), after (fetch_error_msg e)) /\
   fetch_all_versions w = (Ok [], after (fetch_error_msg e)) /\
   (forall line, requests (after line) = S (requests w) /\
                 collection (after line) = collection w)) /\
  ((i < 3)%nat -> storable data = true -> ~ stored w data ->
   fst (save_to_mongo data w) = Ok None /\
   collection w' = collection w /\
   requests w' = (requests w + i + 1)%nat /\
   stdout w' = stdout w ++ [save_error_msg e]) /\
  (requests w' <= requests w + i + 1)%nat.
Proof.
  intros Hfail e after w'. subst e after w'.
  apply fails_at_requests in Hfail.
  split; [ | split ].
  - intros ->. run_program. rewrite Hfail. step_program. repeat split.
  - intros Hi Hfit Hnew.
    assert (Hfind : find (fun d => value_eqb (config d) data) (collection w)
                    = None).
    { apply find_config_none. intros r Hr E. apply Hnew.
      exists r. split; assumption. }
    destruct i as [ | [ | [ | i ] ] ]; [ | | | lia ].
    + run_program. rewrite Hfail. step_program.
      repeat split. lia.
    + destruct Hfail as (H0 & H1).
      run_program. rewrite H0. step_program. rewrite Hfit. step_program.
      rewrite Hfind. step_program. rewrite H1. step_program.
      repeat split. lia.
    + destruct Hfail as (H0 & H1 & H2).
      run_program. rewrite H0. step_program. rewrite Hfit. step_program.
      rewrite Hfind. step_program. rewrite H1. step_program.
      rewrite H2. step_program.
      repeat split. lia.
  - destruct i as [ | [ | [ | i ] ] ].
    + run_program. rewrite Hfail. step_program. lia.
    + destruct Hfail as (H0 & H1).
      run_program. rewrite H0. step_program.
      destruct (storable data); step_program; [ | lia ].
      destruct (find _ (collection w)); step_program; [ lia | ].
      rewrite H1. step_program. lia.
    + destruct Hfail as (H0 & H1 & H2).
      run_program. rewrite H0. step_program.
      destruct (storable data); step_program; [ | lia ].
      destruct (find _ (collection w)); step_program; [ lia | ].
      rewrite H1. step_program. rewrite H2. step_program. lia.
    + destruct Hfail as (H0 & H1 & H2).
      run_program. rewrite H0. step_program.
      destruct (storable data); step_program; [ | lia ].
      destruct (find _ (collection w)); step_program; [ lia | ].
      rewrite H1. step_program. rewrite H2. step_program. lia.
Qed.

Lemma storage_failure_is_logged_witness :
  let w0 := unreachable sample_world in
  let w1 := drops_after 1 sample_world in
  let w2 := drops_after 2 sample_world in
  (fails_at w0 0 /\ fails_at w1 1 /\ fails_at w2 2) /\
  (fst (save_to_mongo doc_a3 w0) = Ok None /\
   fst (fetch_latest_from_mongo w0) = Ok (VDict []) /\
   fst (fetch_all_versions w0) = Ok [] /\
   collection (snd (save_to_mongo doc_a3 w0)) = collection sample_world) /\
  (collection (snd (save_to_mongo doc_a3 w1)) = collection sample_world /\
   requests (snd (save_to_mongo doc_a3 w1)) = (requests sample_world + 2)%nat) /\
  (collection (snd (save_to_mongo doc_a3 w2)) = collection sample_world /\
   requests (snd (save_to_mongo doc_a3 w2)) = (requests sample_world + 3)%nat).
Proof.
  cbv zeta.
  assert (Hfit : storable doc_a3 = true) by reflexivity.
  assert (Hnew : forall n, ~ stored (drops_after n sample_world) doc_a3).
  { intros n (r & Hin & Hr).
    change (In r (collection sample_world)) in Hin.
    vm_compute in Hin.
    destruct Hin as [<- | [<- | [<- | []]]]; discriminate Hr. }
  assert (H0 : fails_at (unreachable sample_world) 0).
  { split; [ intros j Hj; lia | reflexivity ]. }
  assert (H1 : fails_at (drops_after 1 sample_world) 1).
  { split; [ | reflexivity ].
    intros j Hj. assert (j = 0%nat) as -> by lia. reflexivity. }
  assert (H2 : fails_at (drops_after 2 sample_world) 2).
  { split; [ | reflexivity ].
    intros j Hj.
    assert (j = 0%nat \/ j = 1%nat) as [-> | ->] by lia; reflexivity. }
  split; [ split; [ exact H0 | split; [ exact H1 | exact H2 ] ] | ].
  split; [ | split ].
  - destruct (storage_failure_is_logged (unreachable sample_world) doc_a3 0 H0)
      as (Hfirst & _).
    destruct (Hfirst eq_refl) as (Hsave & Hlatest & Hall & _).
    rewrite Hsave, Hlatest, Hall. repeat split.
  - destruct (storage_failure_is_logged (drops_after 1 sample_world) doc_a3 1 H1)
      as (_ & Hlater & _).
    assert (Hi : (1 < 3)%nat) by lia.
    destruct (Hlater Hi Hfit (Hnew 1%nat)) as (_ & Hcoll & Hreq & _).
    split; [ exact Hcoll | exact Hreq ].
  - destruct (storage_failure_is_logged (drops_after 2 sample_world) doc_a3 2 H2)
      as (_ & Hlater & _).
    assert (Hi : (2 < 3)%nat) by lia.
    destruct (Hlater Hi Hfit (Hnew 2%nat)) as (_ & Hcoll & Hreq & _).
    split; [ exact Hcoll | exact Hreq ].
Defined.

(** ** Reading the latest version *)

Lemma max_by_version_in (ds : list Doc) (d : Doc) :
  In (max_by_version d ds) (d :: ds).
Proof.
  revert d. induction ds as [ | x ds IH ]; intros d.
  - left. reflexivity.
  - simpl max_by_version.
    destruct (IH (if version d <? version x then x else d)) as [H | H].
    + destruct (version d <? version x).
      * right. left. exact H.
      * left. exact H.
    + right. right. exact H.
Qed.

(** The record [find_one(sort=[("version", -1)])] gives is a record of the
    collection with the highest version. *)
Lemma latest_is_highest (ds : list Doc) (d : Doc) :
  latest ds = Some d ->
  In d ds /\ forall x, In x ds -> version x <= version d.
Proof.
  destruct ds as [ | y ds ]; simpl; [ discriminate | ].
  intros E. injection E as <-. split.
  - apply max_by_version_in.
  - intros x Hx. rewrite max_by_version_fold. destruct Hx as [<- | Hx].
    + apply fold_max_ge.
    + apply fold_max_bound. apply in_map. exact Hx.
Qed.

(** What [fetch_latest_from_mongo] answers when the server is reachable:
    the empty object for an empty store, and otherwise the version, the
    timestamp and the configuration of the record with the highest
    version, and no other key. *)
Lemma fetch_latest_payload (w : World) :
  backend_up w (requests w) = true ->
  fst (fetch_latest_from_mongo w)
  = Ok (match latest (collection w) with
        | Some d => VDict [("version", VInt (version d));
                           ("timestamp", VStr (isoformat (timestamp d)));
                           ("config", config d)]
        | None => VDict []
        end).
Proof.
  intros Hup. run_program. rewrite Hup. step_program.
  destruct (latest (collection w)); reflexivity.
Qed.

(** C8, evaluated where it fails. The latest record of the sample store is
    the rollback to version 1; the history lists it with its origin, the
    answer of [fetch_latest_from_mongo] has no such key. *)
Theorem latest_payload_omits_origin :
  (exists d, latest (collection sample_world) = Some d /\
             version d = 3 /\ rolled_back_from d = Some 1) /\
  fst (fetch_latest_from_mongo sample_world)
  = Ok (VDict [("version", VInt 3);
               ("timestamp", VStr "2024-05-17T09:30:02.123000");
               ("config", doc_a1)]) /\
  rbind (fst (fetch_latest_from_mongo sample_world))
        (fun p => Ok (payload_get "rolled_back_from" p)) = Ok None /\
  rbind (fst (fetch_all_versions sample_world))
        (fun l => Ok (map (payload_get "rolled_back_from") l))
  = Ok [Some VNone; Some VNone; Some (VInt 1)].
Proof.
  split.
  - eexists. split; [ vm_compute; reflexivity | split; reflexivity ].
  - repeat split; vm_compute; reflexivity.
Qed.

(** ** Saves in flight together *)

(** Served one after the other, the three requests of [save_step] are
    [save_to_mongo]. *)
Lemma save_steps_are_save (w : World) (data : value) :
  (s1 <- save_step (AtFind data) ;; s2 <- save_step s1 ;; save_step s2) w
  = (Ok Finished, snd (save_to_mongo data w)).
Proof.
  unfold bind at 1 2. unfold save_step at 1.
  run_program.
  destruct (backend_up w (requests w)); step_program; [ | reflexivity ].
  destruct (storable data) eqn:Hfit; step_program; [ | reflexivity ].
  destruct (find _ (collection w)); step_program; [ reflexivity | ].
  destruct (backend_up w (S (requests w))); step_program; [ | reflexivity ].
  destruct (backend_up w (S (S (requests w)))); step_program;
    rewrite ?Hfit; reflexivity.
Qed.

Lemma serial_schedule (w : World) (a b : value) :
  interleave one_after_the_other (AtFind a) (AtFind b) w
  = (Ok (Finished, Finished), snd ((save_to_mongo a ;; save_to_mongo b) w)).
Proof.
  unfold one_after_the_other. cbn [interleave].
  pose proof (save_steps_are_save w a) as Ha.
  pose proof (save_returns_none w a) as Hra.
  unfold bind in Ha |- *.
  destruct (save_to_mongo a w) as [ra wa]. cbn [fst snd] in Ha, Hra. subst ra.
  destruct (save_step (AtFind a) w) as [[s1 | e1] w1]; [ | discriminate Ha ].
  destruct (save_step s1 w1) as [[s2 | e2] w2]; [ | discriminate Ha ].
  destruct (save_step s2 w2) as [[s3 | e3] w3]; [ | discriminate Ha ].
  injection Ha as -> ->.
  pose proof (save_steps_are_save wa b) as Hb.
  unfold bind in Hb.
  destruct (save_step (AtFind b) wa) as [[t1 | e1] v1]; [ | discriminate Hb ].
  destruct (save_step t1 v1) as [[t2 | e2] v2]; [ | discriminate Hb ].
  destruct (save_step t2 v2) as [[t3 | e3] v3]; [ | discriminate Hb ].
  injection Hb as -> ->. reflexivity.
Qed.

(** Content that is in the store is never stored again, whatever the
    server does. *)
Lemma save_of_stored_adds_nothing (w : World) (data : value) :
  stored w data -> collection (snd (save_to_mongo data w)) = collection w.
Proof.
  intros Hst. pose proof (stored_is_storable w data Hst) as Hfit.
  apply find_config_some in Hst. destruct Hst as (r & Hfind & _).
  run_program.
  destruct (backend_up w (requests w)); step_program; [ | reflexivity ].
  rewrite Hfit. step_program. rewrite Hfind. reflexivity.
Qed.

Lemma snd_bind_save (w : World) (a b : value) :
  snd ((save_to_mongo a ;; save_to_mongo b) w)
  = snd (save_to_mongo b (snd (save_to_mongo a w))).
Proof.
  pose proof (save_returns_none w a) as Hra. unfold bind.
  destruct (save_to_mongo a w) as [ra wa]. simpl in Hra. subst ra.
  reflexivity.
Qed.

(** C9, as stated, fails: with the requests of two calls served in turn,
    two saves of different content both take version 1 in an empty store,
    and two saves of the same content both insert it. *)
Lemma overlapping_saves_collide :
  let in_turn := [true; false; true; false; true; false] in
  always_up fresh_world /\ doc_a1 <> doc_a2 /\
  ~ versions_never_shared in_turn fresh_world doc_a1 doc_a2 /\
  ~ dedup_never_doubles in_turn fresh_world doc_a1.
Proof.
  cbv zeta.
  split; [ intros n; reflexivity | ].
  split; [ discriminate | ].
  split.
  - unfold versions_never_shared.
    assert (E : map version
                  (added fresh_world
                     (snd (interleave [true; false; true; false; true; false]
                             (AtFind doc_a1) (AtFind doc_a2) fresh_world)))
                = [1; 1]) by (vm_compute; reflexivity).
    rewrite E. intros H. inversion H as [ | ? ? Hnotin _ ]; subst.
    apply Hnotin. left. reflexivity.
  - unfold dedup_never_doubles.
    assert (E : List.length
                  (added fresh_world
                     (snd (interleave [true; false; true; false; true; false]
                             (AtFind doc_a1) (AtFind doc_a1) fresh_world)))
                = 2%nat) by (vm_compute; reflexivity).
    rewrite E. lia.
Qed.

(** C9, amended. Nothing in [save_to_mongo] serializes its three requests.
    When one call has returned before the other starts, the run is the two
    calls in sequence, no version number is given twice and content saved
    twice is stored once. *)
Theorem serial_saves_are_consistent (w : World) (a b : value) :
  interleave one_after_the_other (AtFind a) (AtFind b) w
  = (Ok (Finished, Finished), snd ((save_to_mongo a ;; save_to_mongo b) w)) /\
  versions_never_shared one_after_the_other w a b /\
  dedup_never_doubles one_after_the_other w a.
Proof.
  split; [ apply serial_schedule | ].
  unfold versions_never_shared, dedup_never_doubles.
  rewrite !serial_schedule. simpl snd. rewrite !snd_bind_save.
  split.
  - set (w1 := snd (save_to_mongo a w)).
    destruct (save_adds_at_most_one w a) as [H1 | H1];
      destruct (save_adds_at_most_one w1 b) as [H2 | H2]; fold w1 in H1.
    + rewrite (added_nothing w _ (eq_trans H2 H1)). constructor.
    + rewrite H1 in H2. rewrite (added_after_append _ _ _ H2).
      repeat constructor. intros [].
    + rewrite H1 in H2. rewrite (added_after_append _ _ _ H2).
      repeat constructor. intros [].
    + rewrite H1 in H2. rewrite <- app_assoc in H2.
      rewrite (added_after_append _ _ _ H2). simpl.
      rewrite H1, next_version_after_append by reflexivity.
      repeat constructor.
      * intros [E | []]. lia.
      * intros [].
  - set (w1 := snd (save_to_mongo a w)).
    destruct (save_adds_at_most_one w a) as [H1 | H1]; fold w1 in H1.
    + destruct (save_adds_at_most_one w1 a) as [H2 | H2].
      * rewrite (added_nothing w _ (eq_trans H2 H1)). simpl. lia.
      * rewrite H1 in H2. rewrite (added_after_append _ _ _ H2).
        simpl. lia.
    + assert (Hst : stored w1 a).
      { exists (saved_record w a). split; [ | reflexivity ].
        rewrite H1. apply in_or_app. right. left. reflexivity. }
      pose proof (save_of_stored_adds_nothing w1 a Hst) as H2.
      rewrite H1 in H2. rewrite (added_after_append _ _ _ H2). simpl. lia.
Qed.

(** ** The watchdog handler *)

(** C10. A change of the watched file to an empty mapping is dropped: the
    handler announces the change and does nothing else, no request reaches
    the server and the collection is as before.  A file that cannot be read
    or parsed, or whose top level is no mapping, is dropped the same way. *)
Theorem empty_mapping_is_dropped (w : World) (ev : event) :
  abspath w (src_path ev) = abspath w CONFIG_FILE ->
  (fs w CONFIG_FILE = Parsed (VDict []) ->
   on_modified ev w = (Ok tt, set_stdout w (stdout w ++ [detected_msg])) /\
   collection (snd (on_modified ev w)) = collection w /\
   requests (snd (on_modified ev w)) = requests w) /\
  ((exists e, fs w CONFIG_FILE = Unreadable e) \/
   (exists v, fs w CONFIG_FILE = Parsed v /\ forall items, v <> VDict items) ->
   fst (on_modified ev w) = Ok tt /\
   collection (snd (on_modified ev w)) = collection w /\
   requests (snd (on_modified ev w)) = requests w).
Proof.
  intros Hpath. unfold on_modified. rewrite Hpath, String.eqb_refl.
  unfold bind, print, read_config, ret.
  cbn -[detected_msg CONFIG_FILE].
  split.
  - intros ->. repeat split.
  - intros [(e & ->) | (v & -> & Hv)].
    + repeat split.
    + destruct v as [ | b | n | s | l | items ];
        try (exfalso; apply (Hv items); reflexivity);
        repeat split.
Qed.

Lemma empty_mapping_is_dropped_witness :
  let w := with_config_file fresh_world (Parsed (VDict [])) in
  let ev := {| src_path := CONFIG_FILE |} in
  abspath w (src_path ev) = abspath w CONFIG_FILE /\
  fs w CONFIG_FILE = Parsed (VDict []) /\
  collection (snd (on_modified ev w)) = collection w /\
  requests (snd (on_modified ev w)) = requests w.
Proof.
  cbv zeta.
  set (w := with_config_file fresh_world (Parsed (VDict []))).
  set (ev := {| src_path := CONFIG_FILE |}).
  assert (Hpath : abspath w (src_path ev) = abspath w CONFIG_FILE)
    by reflexivity.
  assert (Hfile : fs w CONFIG_FILE = Parsed (VDict []))
    by (vm_compute; reflexivity).
  destruct (empty_mapping_is_dropped w ev Hpath) as (Hempty & _).
  destruct (Hempty Hfile) as (_ & Hcoll & Hreq).
  split; [ exact Hpath | ].
  split; [ exact Hfile | ].
  split; [ exact Hcoll | exact Hreq ].
Defined.

(** * The rest of the program *)

(** ** What one action does to the world *)

Lemma snd_bind_pure {A B : Type} (m : M A) (f : A -> B) (w : World) :
  snd ((x <- m ;; ret (f x)) w) = snd (m w).
Proof.
  unfold bind, ret. destruct (m w) as [[a | e] w']; reflexivity.
Qed.

Lemma fst_bind_pure {A B : Type} (m : M A) (f : A -> B) (w : World) :
  fst ((x <- m ;; ret (f x)) w) = rbind (fst (m w)) (fun a => Ok (f a)).
Proof.
  unfold bind, ret. destruct (m w) as [[a | e] w']; reflexivity.
Qed.

(** A save touches the collection, the counters and the console only. *)
Lemma save_frame (w : World) (data : value) :
  let w' := snd (save_to_mongo data w) in
  fs w' = fs w /\ abspath w' = abspath w /\ backend_up w' = backend_up w /\
  clock w' = clock w /\ write_error w' = write_error w.
Proof.
  run_program.
  destruct (backend_up w (requests w)); step_program; [ | repeat split ].
  destruct (storable data); step_program; [ | repeat split ].
  destruct (find _ (collection w)); step_program; [ repeat split | ].
  destruct (backend_up w (S (requests w))); step_program; [ | repeat split ].
  destruct (backend_up w (S (S (requests w)))); repeat split.
Qed.

(** A save adds a record only for content the store does not hold. *)
Lemma save_adds_only_new (w : World) (data : value) :
  collection (snd (save_to_mongo data w)) = collection w \/
  (~ stored w data /\
   collection (snd (save_to_mongo data w))
   = collection w ++ [saved_record w data]).
Proof.
  destruct (find (fun d => value_eqb (config d) data) (collection w))
    as [r | ] eqn:Hfind.
  - left. apply save_of_stored_adds_nothing.
    apply find_some in Hfind. destruct Hfind as [Hin Heq].
    exists r. split; [ exact Hin | apply value_eqb_eq; exact Heq ].
  - destruct (save_adds_at_most_one w data) as [H | H].
    + left. exact H.
    + right. split; [ | exact H ].
      intros (r & Hin & Hcfg).
      apply (proj2 (find_config_none _ _) Hfind r Hin Hcfg).
Qed.

Lemma fetch_latest_reads_only (w : World) :
  collection (snd (fetch_latest_from_mongo w)) = collection w /\
  fs (snd (fetch_latest_from_mongo w)) = fs w.
Proof.
  run_program.
  destruct (backend_up w (requests w)); step_program; [ | repeat split ].
  destruct (latest (collection w)); repeat split.
Qed.

Lemma fetch_all_reads_only (w : World) :
  collection (snd (fetch_all_versions w)) = collection w /\
  fs (snd (fetch_all_versions w)) = fs w.
Proof.
  run_program.
  destruct (backend_up w (requests w)); repeat split.
Qed.

(** What the handler does, case by case: nothing but printing; or the
    error of the normalizer, raised before any request; or the save of the
    normalized document. *)
Lemma on_modified_cases (w : World) (ev : event) :
  (fst (on_modified ev w) = Ok tt /\ same_but_stdout w (snd (on_modified ev w)))
  \/
  (abspath w (src_path ev) = abspath w CONFIG_FILE /\
   exists items e,
     fs w CONFIG_FILE = Parsed (VDict items) /\ items <> [] /\
     convert_numeric_values (VDict items) = Raise e /\
     on_modified ev w = (Raise e, announced w))
  \/
  (abspath w (src_path ev) = abspath w CONFIG_FILE /\
   exists items d',
     fs w CONFIG_FILE = Parsed (VDict items) /\ items <> [] /\
     convert_numeric_values (VDict items) = Ok d' /\
     on_modified ev w = (Ok tt, snd (save_to_mongo d' (announced w)))).
Proof.
  unfold on_modified.
  destruct (String.eqb_spec (abspath w (src_path ev)) (abspath w CONFIG_FILE))
    as [Hpath | _]; [ | left; repeat split ].
  unfold bind, print, read_config, ret, lift.
  cbn -[detected_msg CONFIG_FILE save_to_mongo convert_numeric_values truthy].
  fold (announced w).
  destruct (fs w CONFIG_FILE) as [e | v] eqn:Hfs.
  - left. repeat split.
  - destruct v as [ | b | n | s | l | items ];
      try solve [ left; repeat split ].
    destruct items as [ | kv items ]; [ left; repeat split | ].
    cbn [truthy].
    destruct (convert_numeric_values (VDict (kv :: items))) as [d' | e] eqn:Hc.
    + right. right. split; [ exact Hpath | ].
      exists (kv :: items), d'.
      split; [ reflexivity | ]. split; [ discriminate | ].
      split; [ exact Hc | ].
      pose proof (save_returns_none (announced w) d') as Hnone.
      destruct (save_to_mongo d' (announced w)) as [r w1].
      simpl in Hnone. subst r. reflexivity.
    + right. left. split; [ exact Hpath | ].
      exists (kv :: items), e.
      split; [ reflexivity | ]. split; [ discriminate | ].
      split; [ exact Hc | reflexivity ].
Qed.

(** Any action leaves the collection as it was, or appends one record with
    the next version: a record for content the store did not hold, or a
    copy of a stored record that names the version of that record. *)
Lemma perform_adds_at_most_one (a : action) (w : World) :
  collection (snd (perform a w)) = collection w \/
  exists r,
    collection (snd (perform a w)) = collection w ++ [r] /\
    version r = next_version_spec (collection w) /\
    ((is_rollback a = false /\ rolled_back_from r = None /\
      ~ stored w (config r)) \/
     (is_rollback a = true /\
      exists t, In t (collection w) /\
                rolled_back_from r = Some (version t) /\
                config r = config t)).
Proof.
  destruct a as [data | v | | | | ev | content]; simpl perform.
  - rewrite snd_bind_pure.
    destruct (save_adds_only_new w data) as [H | [Hnew H]];
      [ left; exact H | right ].
    exists (saved_record w data). split; [ exact H | ].
    split; [ reflexivity | ]. left. repeat split. exact Hnew.
  - unfold rollback. rewrite !snd_bind_pure.
    destruct (rollback_adds_at_most_one w v) as [H | (t & Hfind & H)];
      [ left; exact H | right ].
    exists (rollback_record w t v). split; [ exact H | ].
    split; [ reflexivity | ]. right. split; [ reflexivity | ].
    apply find_some in Hfind. destruct Hfind as [Hin Hv].
    apply Z.eqb_eq in Hv. exists t. subst v. repeat split. exact Hin.
  - left. unfold get_latest_config. rewrite snd_bind_pure.
    apply fetch_latest_reads_only.
  - left. unfold get_config_history. rewrite !snd_bind_pure.
    apply fetch_all_reads_only.
  - left. unfold view_all_configs. rewrite !snd_bind_pure.
    apply fetch_all_reads_only.
  - destruct (on_modified_cases w ev)
      as [[_ Hsame] | [(_ & items & e & _ & _ & _ & Hrun)
                      | (_ & items & d' & _ & _ & _ & Hrun)]].
    + left. apply Hsame.
    + left. rewrite Hrun. reflexivity.
    + rewrite Hrun. simpl snd.
      destruct (save_adds_only_new (announced w) d') as [H | [Hnew H]];
        [ left; exact H | right ].
      exists (saved_record w d'). split; [ exact H | ].
      split; [ reflexivity | ]. left. repeat split. exact Hnew.
  - left. reflexivity.
Qed.

(** ** Invariants of the history *)

Lemma consecutive_snoc (start : Z) (n : nat) :
  consecutive start (S n) = consecutive start n ++ [start + Z.of_nat n].
Proof.
  unfold consecutive. rewrite seq_S, map_app. reflexivity.
Qed.

Lemma consecutive_range (start : Z) (n : nat) (x : Z) :
  In x (consecutive start n) -> start <= x < start + Z.of_nat n.
Proof.
  unfold consecutive. rewrite in_map_iff. intros (i & <- & Hi).
  apply in_seq in Hi. lia.
Qed.

Lemma consecutive_nodup (n : nat) :
  forall start, NoDup (consecutive start n).
Proof.
  induction n as [ | n IH ]; intros start.
  - constructor.
  - rewrite consecutive_succ. constructor; [ | apply IH ].
    intros H. apply consecutive_range in H. lia.
Qed.

Lemma linear_snoc (ds : list Doc) (r : Doc) :
  linear (ds ++ [r]) <->
  linear ds /\ version r = 1 + Z.of_nat (List.length ds).
Proof.
  unfold linear. rewrite length_app, Nat.add_1_r, consecutive_snoc, map_app.
  simpl. split.
  - intros H. apply app_inj_tail in H. exact H.
  - intros [-> ->]. reflexivity.
Qed.

(** In a linear history the next version is the number of records plus
    one. *)
Lemma linear_next_version (ds : list Doc) :
  linear ds -> next_version_spec ds = Z.of_nat (List.length ds) + 1.
Proof.
  induction ds as [ | r ds IH ] using rev_ind; intros Hlin.
  - reflexivity.
  - apply linear_snoc in Hlin. destruct Hlin as [Hds Hr].
    specialize (IH Hds).
    rewrite next_version_after_append by lia.
    rewrite IH, length_app. simpl. lia.
Qed.

Lemma linear_append (ds : list Doc) (r : Doc) :
  linear ds -> version r = next_version_spec ds -> linear (ds ++ [r]).
Proof.
  intros Hlin Hr. apply linear_snoc. split; [ exact Hlin | ].
  rewrite Hr, (linear_next_version ds Hlin). lia.
Qed.

Lemma origins_append (ds : list Doc) (r : Doc) :
  origins_known ds ->
  (rolled_back_from r = None \/
   exists t, In t ds /\ rolled_back_from r = Some (version t)) ->
  origins_known (ds ++ [r]).
Proof.
  intros Hds Hr i r0 v Hnth Hfrom.
  destruct (Nat.lt_ge_cases i (List.length ds)) as [Hi | Hi].
  - rewrite nth_error_app1 in Hnth by exact Hi.
    destruct (Hds i r0 v Hnth Hfrom) as (j & t & Hj & Hnt & Hv).
    exists j, t. split; [ exact Hj | ]. split; [ | exact Hv ].
    rewrite nth_error_app1 by lia. exact Hnt.
  - rewrite nth_error_app2 in Hnth by exact Hi.
    destruct (i - List.length ds)%nat as [ | k ] eqn:Hk; simpl in Hnth.
    + injection Hnth as <-.
      destruct Hr as [Hnone | (t & Hin & Hsome)]; [ congruence | ].
      rewrite Hsome in Hfrom. injection Hfrom as <-.
      destruct (In_nth_error _ _ Hin) as (j & Hj).
      exists j, t. split.
      * assert (j < List.length ds)%nat
          by (apply nth_error_Some; congruence).
        lia.
      * split; [ | reflexivity ].
        rewrite nth_error_app1; [ exact Hj | ].
        apply nth_error_Some. congruence.
    + destruct k; discriminate Hnth.
Qed.

(** X1. No sequence of saves, rollbacks, reads, notifications and edits of
    the file removes or changes a stored record: the collection before is
    the beginning of the collection after. *)
Theorem history_only_grows (acts : list action) (w : World) :
  exists new, collection (after acts w) = collection w ++ new.
Proof.
  revert w. induction acts as [ | a acts IH ]; intros w.
  - exists []. simpl. rewrite app_nil_r. reflexivity.
  - unfold after in *. simpl fold_left.
    destruct (IH (snd (perform a w))) as (new & Hnew).
    destruct (perform_adds_at_most_one a w) as [H | (r & H & _)].
    + exists new. rewrite Hnew, H. reflexivity.
    + exists (r :: new). rewrite Hnew, H, <- app_assoc. reflexivity.
Qed.

(** X2. Whatever the server does, a history numbered 1, 2, ... in order of
    insertion (the empty one, for a start) stays numbered so under any
    sequence of actions: no version is given twice and none is left out. *)
Theorem history_stays_linear (acts : list action) (w : World) :
  linear (collection w) ->
  linear (collection (after acts w)) /\
  NoDup (map version (collection (after acts w))).
Proof.
  intros Hlin.
  assert (H : linear (collection (after acts w))).
  { revert w Hlin. induction acts as [ | a acts IH ]; intros w Hlin.
    - exact Hlin.
    - unfold after in *. simpl fold_left. apply IH.
      destruct (perform_adds_at_most_one a w) as [H | (r & H & Hv & _)];
        rewrite H.
      + exact Hlin.
      + apply linear_append; assumption. }
  split; [ exact H | ].
  rewrite H. apply consecutive_nodup.
Qed.

Lemma history_stays_linear_witness :
  let acts := [Save doc_a1; Edit (Parsed doc_a2); Modified config_event;
               Rollback 1; Rollback 7; GetHistory; Save doc_a2] in
  linear (collection fresh_world) /\
  map version (collection (after acts fresh_world))
  = consecutive 1 (List.length (collection (after acts fresh_world))) /\
  List.length (collection (after acts fresh_world)) = 3%nat.
Proof.
  cbv zeta.
  assert (Hlin : linear (collection fresh_world)) by reflexivity.
  split; [ exact Hlin | ].
  split.
  - exact (proj1 (history_stays_linear _ fresh_world Hlin)).
  - vm_compute. reflexivity.
Defined.

(** X3. The origin a rollback record names is the version of a record
    inserted before it, and this stays so under any sequence of actions. *)
Theorem origins_stay_known (acts : list action) (w : World) :
  origins_known (collection w) ->
  origins_known (collection (after acts w)).
Proof.
  revert w. induction acts as [ | a acts IH ]; intros w Hok.
  - exact Hok.
  - unfold after in *. simpl fold_left. apply IH.
    destruct (perform_adds_at_most_one a w)
      as [H | (r & H & _ & [(_ & Hnone & _) | (_ & t & Hin & Hsome & _)])];
      rewrite H.
    + exact Hok.
    + apply origins_append; [ exact Hok | left; exact Hnone ].
    + apply origins_append; [ exact Hok | right ].
      exists t. split; assumption.
Qed.

Lemma origins_stay_known_witness :
  let acts := [Save doc_a1; Save doc_a2; Rollback 1; Rollback 3] in
  origins_known (collection fresh_world) /\
  origins_known (collection (after acts fresh_world)) /\
  map rolled_back_from (collection (after acts fresh_world))
  = [None; None; Some 1; Some 3].
Proof.
  cbv zeta.
  assert (Hok : origins_known (collection fresh_world)).
  { intros i r v Hnth. destruct i; discriminate Hnth. }
  split; [ exact Hok | ].
  split.
  - exact (origins_stay_known _ fresh_world Hok).
  - vm_compute. reflexivity.
Defined.

(** X4. Without rollbacks no content is stored twice: if the stored
    configurations are pairwise different, they stay so under any sequence
    of saves, reads, notifications and edits of the file. *)
Theorem contents_stay_distinct (acts : list action) (w : World) :
  forallb (fun a => negb (is_rollback a)) acts = true ->
  NoDup (map config (collection w)) ->
  NoDup (map config (collection (after acts w))).
Proof.
  revert w. induction acts as [ | a acts IH ]; intros w Hacts Hnodup.
  - exact Hnodup.
  - simpl in Hacts. apply andb_true_iff in Hacts. destruct Hacts as [Ha Hacts].
    unfold after in *. simpl fold_left. apply IH; [ exact Hacts | ].
    destruct (perform_adds_at_most_one a w)
      as [H | (r & H & _ & [(_ & _ & Hnew) | (Hrb & _)])]; rewrite H.
    + exact Hnodup.
    + rewrite map_app. apply NoDup_app.
      * exact Hnodup.
      * repeat constructor. intros [].
      * intros c Hc [<- | []]. apply Hnew.
        apply in_map_iff in Hc. destruct Hc as (t & Ht & Hin).
        exists t. split; assumption.
    + rewrite Hrb in Ha. discriminate Ha.
Qed.

Lemma contents_stay_distinct_witness :
  let acts := [Save doc_a1; Save doc_a2; Save doc_a1;
               Edit (Parsed doc_a2); Modified config_event; GetLatest] in
  forallb (fun a => negb (is_rollback a)) acts = true /\
  NoDup (map config (collection fresh_world)) /\
  NoDup (map config (collection (after acts fresh_world))) /\
  List.length (collection (after acts fresh_world)) = 2%nat.
Proof.
  cbv zeta.
  assert (Hacts : forallb (fun a => negb (is_rollback a))
                    [Save doc_a1; Save doc_a2; Save doc_a1;
                     Edit (Parsed doc_a2); Modified config_event; GetLatest]
                  = true) by reflexivity.
  assert (Hnodup : NoDup (map config (collection fresh_world)))
    by constructor.
  split; [ exact Hacts | ].
  split; [ exact Hnodup | ].
  split.
  - exact (contents_stay_distinct _ fresh_world Hacts Hnodup).
  - vm_compute. reflexivity.
Defined.

(** ** Reading the history *)

Lemma insert_by_version_perm (d : Doc) (l : list Doc) :
  Permutation (insert_by_version d l) (d :: l).
Proof.
  induction l as [ | x l IH ]; simpl.
  - apply Permutation_refl.
  - destruct (version d <? version x).
    + apply Permutation_refl.
    + apply perm_trans with (x :: d :: l).
      * apply perm_skip. exact IH.
      * apply perm_swap.
Qed.

Lemma insert_by_version_hd (a d : Doc) (l : list Doc) :
  version_le a d -> HdRel version_le a l ->
  HdRel version_le a (insert_by_version d l).
Proof.
  intros Had Hl. destruct l as [ | x l ]; simpl.
  - constructor. exact Had.
  - destruct (version d <? version x); constructor.
    + exact Had.
    + inversion Hl. assumption.
Qed.

Lemma insert_by_version_sorted (d : Doc) (l : list Doc) :
  Sorted version_le l -> Sorted version_le (insert_by_version d l).
Proof.
  induction l as [ | x l IH ]; simpl; intros Hs.
  - repeat constructor.
  - inversion Hs as [ | ? ? Hl Hhd ]; subst.
    destruct (Z.ltb_spec (version d) (version x)) as [Hlt | Hge].
    + constructor; [ exact Hs | ]. constructor. unfold version_le. lia.
    + constructor; [ apply IH; exact Hl | ].
      apply insert_by_version_hd; [ exact Hge | exact Hhd ].
Qed.

Lemma fold_insert_sorted (ds acc : list Doc) :
  Sorted version_le acc ->
  Sorted version_le (fold_left (fun l d => insert_by_version d l) ds acc).
Proof.
  revert acc. induction ds as [ | d ds IH ]; intros acc Hacc; simpl.
  - exact Hacc.
  - apply IH. apply insert_by_version_sorted. exact Hacc.
Qed.

Lemma fold_insert_perm (ds acc : list Doc) :
  Permutation (fold_left (fun l d => insert_by_version d l) ds acc)
              (acc ++ ds).
Proof.
  revert acc. induction ds as [ | d ds IH ]; intros acc; simpl.
  - rewrite app_nil_r. apply Permutation_refl.
  - apply perm_trans with (insert_by_version d acc ++ ds); [ apply IH | ].
    apply perm_trans with ((d :: acc) ++ ds).
    + apply Permutation_app_tail. apply insert_by_version_perm.
    + apply Permutation_middle.
Qed.

Lemma insert_by_version_last (d : Doc) (acc : list Doc) :
  Forall (fun x => version_le x d) acc ->
  insert_by_version d acc = acc ++ [d].
Proof.
  induction 1 as [ | x acc Hx _ IH ]; simpl.
  - reflexivity.
  - destruct (Z.ltb_spec (version d) (version x)) as [Hlt | _].
    + unfold version_le in Hx. lia.
    + rewrite IH. reflexivity.
Qed.

Lemma fold_insert_ordered (rest acc : list Doc) :
  (forall x y, In x acc -> In y rest -> version_le x y) ->
  StronglySorted version_le rest ->
  fold_left (fun l d => insert_by_version d l) rest acc = acc ++ rest.
Proof.
  revert acc. induction rest as [ | d rest IH ]; intros acc Hacc Hs; simpl.
  - rewrite app_nil_r. reflexivity.
  - apply StronglySorted_inv in Hs. destruct Hs as [Hrest Hd].
    rewrite insert_by_version_last.
    + rewrite IH; [ rewrite <- app_assoc; reflexivity | | exact Hrest ].
      intros x y Hx Hy. apply in_app_or in Hx. destruct Hx as [Hx | [<- | []]].
      * apply Hacc; [ exact Hx | right; exact Hy ].
      * rewrite Forall_forall in Hd. apply Hd. exact Hy.
    + apply Forall_forall. intros x Hx. apply Hacc; [ exact Hx | left; reflexivity ].
Qed.

(** A history whose versions do not go down in the order of insertion is
    its own sorting. *)
Lemma sort_by_version_ordered (ds : list Doc) :
  StronglySorted version_le ds -> sort_by_version ds = ds.
Proof.
  intros Hs. unfold sort_by_version.
  apply (fold_insert_ordered ds []); [ intros x y [] | exact Hs ].
Qed.

Lemma consecutive_ordered (ds : list Doc) :
  forall start,
    map version ds = consecutive start (List.length ds) ->
    StronglySorted version_le ds.
Proof.
  induction ds as [ | d ds IH ]; intros start Hds.
  - constructor.
  - simpl List.length in Hds. rewrite consecutive_succ in Hds.
    simpl in Hds. injection Hds as Hd Hrest.
    constructor; [ apply (IH (start + 1)); exact Hrest | ].
    apply Forall_forall. intros x Hx.
    apply (in_map version) in Hx. rewrite Hrest in Hx.
    apply consecutive_range in Hx. unfold version_le. lia.
Qed.

Lemma linear_ordered (ds : list Doc) :
  linear ds -> StronglySorted version_le ds.
Proof. apply consecutive_ordered. Qed.

(** X5. With the server reachable, [fetch_all_versions] lists every record
    of the collection exactly once, in ascending order of version. *)
Theorem history_is_sorted_collection (w : World) :
  backend_up w (requests w) = true ->
  exists docs,
    fst (fetch_all_versions w) = Ok (map history_payload docs) /\
    Permutation docs (collection w) /\
    Sorted version_le docs.
Proof.
  intros Hup. exists (sort_by_version (collection w)).
  split; [ | split ].
  - run_program. rewrite Hup. reflexivity.
  - apply (fold_insert_perm (collection w) []).
  - apply fold_insert_sorted. constructor.
Qed.

Lemma history_is_sorted_collection_witness :
  backend_up sample_world (requests sample_world) = true /\
  exists docs,
    fst (fetch_all_versions sample_world) = Ok (map history_payload docs) /\
    Permutation docs (collection sample_world) /\
    Sorted version_le docs.
Proof.
  assert (Hup : backend_up sample_world (requests sample_world) = true)
    by reflexivity.
  split; [ exact Hup | ].
  exact (history_is_sorted_collection sample_world Hup).
Defined.

(** X6. When the versions of the collection do not go down in the order of
    insertion, as in a linear history, [fetch_all_versions] lists the
    records in the order of insertion, and both history routes answer with
    that list. *)
Theorem history_in_insertion_order (w : World) :
  backend_up w (requests w) = true ->
  StronglySorted version_le (collection w) ->
  fst (fetch_all_versions w) = Ok (map history_payload (collection w)) /\
  fst (get_config_history w)
  = Ok (VList (map history_payload (collection w))) /\
  fst (view_all_configs w) = fst (get_config_history w).
Proof.
  intros Hup Hs.
  assert (H : fst (fetch_all_versions w)
              = Ok (map history_payload (collection w))).
  { run_program. rewrite Hup. step_program.
    rewrite (sort_by_version_ordered _ Hs). reflexivity. }
  split; [ exact H | ].
  unfold get_config_history, view_all_configs.
  rewrite !fst_bind_pure, H. split; reflexivity.
Qed.

Lemma history_in_insertion_order_witness :
  backend_up sample_world (requests sample_world) = true /\
  StronglySorted version_le (collection sample_world) /\
  fst (fetch_all_versions sample_world)
  = Ok (map history_payload (collection sample_world)).
Proof.
  assert (Hup : backend_up sample_world (requests sample_world) = true)
    by reflexivity.
  assert (Hs : StronglySorted version_le (collection sample_world)).
  { apply linear_ordered. reflexivity. }
  split; [ exact Hup | ].
  split; [ exact Hs | ].
  exact (proj1 (history_in_insertion_order sample_world Hup Hs)).
Defined.

(** X7. In a linear history the record [fetch_latest_from_mongo] reports
    is the record inserted last. *)
Theorem latest_is_last_inserted (w : World) (earlier : list Doc) (d : Doc) :
  backend_up w (requests w) = true ->
  linear (collection w) ->
  collection w = earlier ++ [d] ->
  fst (fetch_latest_from_mongo w)
  = Ok (VDict [("version", VInt (version d));
               ("timestamp", VStr (isoformat (timestamp d)));
               ("config", config d)]).
Proof.
  intros Hup Hlin Hcoll.
  rewrite (fetch_latest_payload w Hup).
  destruct (latest (collection w)) as [m | ] eqn:Hm.
  - destruct (latest_is_highest _ _ Hm) as [Hin Hmax].
    rewrite Hcoll in Hlin, Hin, Hmax.
    apply linear_snoc in Hlin. destruct Hlin as [Hearlier Hd].
    apply in_app_or in Hin. destruct Hin as [Hin | [<- | []]].
    + exfalso.
      assert (Hle : version d <= version m).
      { apply Hmax. apply in_or_app. right. left. reflexivity. }
      apply (in_map version) in Hin. rewrite Hearlier in Hin.
      apply consecutive_range in Hin. lia.
    + reflexivity.
  - rewrite Hcoll in Hm. destruct earlier; discriminate Hm.
Qed.

Lemma latest_is_last_inserted_witness :
  exists earlier d,
    backend_up sample_world (requests sample_world) = true /\
    linear (collection sample_world) /\
    collection sample_world = earlier ++ [d] /\
    version d = 3 /\
    fst (fetch_latest_from_mongo sample_world)
    = Ok (VDict [("version", VInt (version d));
                 ("timestamp", VStr (isoformat (timestamp d)));
                 ("config", config d)]).
Proof.
  assert (Hup : backend_up sample_world (requests sample_world) = true)
    by reflexivity.
  assert (Hlin : linear (collection sample_world)) by reflexivity.
  eexists. eexists.
  split; [ exact Hup | ].
  split; [ exact Hlin | ].
  assert (Hcoll : collection sample_world
                  = firstn 2 (collection sample_world)
                    ++ [last (collection sample_world)
                             (saved_record sample_world VNone)])
    by reflexivity.
  split; [ exact Hcoll | ].
  split; [ reflexivity | ].
  exact (latest_is_last_inserted sample_world _ _ Hup Hlin Hcoll).
Defined.

(** ** The outcome of a rollback *)



(** What a rollback that returns [True] has done. *)
Lemma rollback_success_state (w : World) (v : Z) (msg : string) :
  fst (rollback_to_version v w) = Ok (true, msg) ->
  exists target,
    find (fun d => version d =? v) (collection w) = Some target /\
    collection (snd (rollback_to_version v w))
    = collection w ++ [rollback_record w target v] /\
    fs (snd (rollback_to_version v w)) CONFIG_FILE
    = Parsed (sort_keys (config target)).
Proof.
  run_program.
  destruct (backend_up w (requests w)); step_program; [ | discriminate ].
  destruct (find _ (collection w)) as [target | ] eqn:Hfind; step_program;
    [ | discriminate ].
  destruct (backend_up w (S (requests w))); step_program; [ | discriminate ].
  destruct (backend_up w (S (S (requests w)))); step_program;
    [ | discriminate ].
  pose proof (find_version_storable _ _ _ Hfind) as Hfit.
  rewrite Hfit. step_program.
  destruct (write_error w CONFIG_FILE); step_program; [ discriminate | ].
  destruct (dump_error w CONFIG_FILE) as [[m remains] | ]; step_program;
    [ discriminate | ].
  rewrite stored_doc_fixed by exact Hfit.
  intros _. exists target. rewrite next_version_of_latest.
  split; [ reflexivity | ]. split; [ reflexivity | ].
  rewrite String.eqb_refl. reflexivity.
Qed.

(** X9. The notification a successful rollback causes by writing the file
    is absorbed when the file reads back as the configuration of the
    target: when the keys of every mapping of that configuration are in
    sorted order, the order [yaml.dump] writes them in, and the normalizer
    leaves the configuration as it is, the handler returns and the
    collection stays as the rollback left it, whatever the server does. *)
Theorem rollback_notification_is_absorbed
        (w : World) (v : Z) (target : Doc) (msg : string) (ev : event) :
  fst (rollback_to_version v w) = Ok (true, msg) ->
  find (fun d => version d =? v) (collection w) = Some target ->
  sort_keys (config target) = config target ->
  convert_numeric_values (config target) = Ok (config target) ->
  let w1 := snd (rollback_to_version v w) in
  fst (on_modified ev w1) = Ok tt /\
  collection (snd (on_modified ev w1)) = collection w1.
Proof.
  intros Hret Hfind Hsorted Hnorm w1.
  destruct (rollback_success_state w v msg Hret) as (t & Hfind' & Hcoll & Hfs).
  rewrite Hfind in Hfind'. injection Hfind' as <-.
  rewrite Hsorted in Hfs.
  fold w1 in Hcoll, Hfs.
  assert (Hst : stored (announced w1) (config target)).
  { exists (rollback_record w target v). split; [ | reflexivity ].
    change (collection (announced w1)) with (collection w1).
    rewrite Hcoll. apply in_or_app. right. left. reflexivity. }
  destruct (on_modified_cases w1 ev)
    as [[Hok1 Hsame] | [(_ & items & e & Hf & _ & Hc & _)
                       | (_ & items & d' & Hf & _ & Hc & Hrun)]].
  - split; [ exact Hok1 | apply Hsame ].
  - rewrite Hfs in Hf. injection Hf as Hf. rewrite <- Hf, Hnorm in Hc.
    discriminate Hc.
  - rewrite Hfs in Hf. injection Hf as Hf. rewrite <- Hf, Hnorm in Hc.
    injection Hc as <-. rewrite Hrun. split; [ reflexivity | ].
    simpl snd. apply (save_of_stored_adds_nothing _ _ Hst).
Qed.

Lemma rollback_notification_is_absorbed_witness :
  exists target msg,
    fst (rollback_to_version 1 edited_world) = Ok (true, msg) /\
    find (fun d => version d =? 1) (collection edited_world) = Some target /\
    sort_keys (config target) = config target /\
    convert_numeric_values (config target) = Ok (config target) /\
    collection (snd (on_modified config_event
                       (snd (rollback_to_version 1 edited_world))))
    = collection (snd (rollback_to_version 1 edited_world)).
Proof.
  eexists. eexists.
  assert (Hret : fst (rollback_to_version 1 edited_world)
                 = Ok (true, rolled_back_msg 1 4))
    by (vm_compute; reflexivity).
  assert (Hfind : find (fun d => version d =? 1) (collection edited_world)
                  = Some {| version := 1;
                            timestamp := bson_datetime (sample_clock 0);
                            config := doc_a1; rolled_back_from := None |})
    by (vm_compute; reflexivity).
  split; [ exact Hret | ].
  split; [ exact Hfind | ].
  split; [ reflexivity | ].
  split; [ reflexivity | ].
  exact (proj2 (rollback_notification_is_absorbed
                  edited_world 1 _ _ config_event Hret Hfind eq_refl eq_refl)).
Defined.

(** Without sorted keys the file does not read back as the configuration
    of the target, and the notification stores it once more. *)
Example rollback_of_unsorted_keys_is_saved_again :
  let w1 := snd ((save_to_mongo doc_ba ;; rollback_to_version 1) fresh_world) in
  fs w1 CONFIG_FILE = Parsed doc_ab /\
  map (fun d => (version d, config d, rolled_back_from d))
      (collection (snd (on_modified config_event w1)))
  = [(1, doc_ba, None); (2, doc_ba, Some 1); (3, doc_ab, None)].
Proof. split; vm_compute; reflexivity. Qed.

(** ** The handler *)

Lemma added_same_start (w w0 w' : World) :
  collection w0 = collection w -> added w w' = added w0 w'.
Proof. unfold added. intros ->. reflexivity. Qed.

(** Once the store holds the normalized content of the file, notifications
    add nothing. *)
Lemma notifications_of_stored_content (acts : list action) :
  forall (w : World) (d d' : value),
    forallb is_notification acts = true ->
    fs w CONFIG_FILE = Parsed d ->
    convert_numeric_values d = Ok d' ->
    stored w d' ->
    collection (after acts w) = collection w.
Proof.
  induction acts as [ | a acts IH ]; intros w d d' Hacts Hfs Hc Hst.
  - reflexivity.
  - simpl in Hacts. apply andb_true_iff in Hacts. destruct Hacts as [Ha Hacts].
    destruct a as [ | | | | | ev | ]; try discriminate Ha.
    unfold after in *. simpl fold_left. simpl perform.
    destruct (on_modified_cases w ev)
      as [[_ Hsame] | [(_ & items & e & Hf & _ & Hc' & _)
                      | (_ & items & d'' & Hf & _ & Hc' & Hrun)]].
    + destruct Hsame as (Hcoll & _ & _ & Hfs' & _).
      rewrite (IH _ d d' Hacts); [ exact Hcoll | | exact Hc | ].
      * rewrite Hfs'. exact Hfs.
      * destruct Hst as (r & Hin & Hr). exists r. rewrite Hcoll.
        split; assumption.
    + rewrite Hfs in Hf. injection Hf as ->. rewrite Hc in Hc'.
      discriminate Hc'.
    + rewrite Hfs in Hf. injection Hf as ->. rewrite Hc in Hc'.
      injection Hc' as <-. rewrite Hrun. simpl snd.
      assert (Hcoll : collection (snd (save_to_mongo d' (announced w)))
                      = collection w).
      { apply (save_of_stored_adds_nothing (announced w) d'). exact Hst. }
      destruct (save_frame (announced w) d') as (Hfs' & _).
      rewrite (IH _ (VDict items) d' Hacts); [ exact Hcoll | | exact Hc | ].
      * rewrite Hfs'. exact Hfs.
      * destruct Hst as (r & Hin & Hr). exists r. rewrite Hcoll.
        split; assumption.
Qed.

(** X10. A burst of notifications, with nobody writing the file in
    between, makes at most one version, whatever paths the notifications
    are for and whatever the server does. *)
Theorem burst_adds_at_most_one (acts : list action) (w : World) :
  forallb is_notification acts = true ->
  (List.length (added w (after acts w)) <= 1)%nat.
Proof.
  revert w. induction acts as [ | a acts IH ]; intros w Hacts.
  - simpl. rewrite (added_nothing w w eq_refl). simpl. lia.
  - pose proof Hacts as Hall.
    simpl in Hacts. apply andb_true_iff in Hacts. destruct Hacts as [Ha Hacts].
    destruct a as [ | | | | | ev | ]; try discriminate Ha.
    unfold after in *. simpl fold_left. simpl perform.
    destruct (on_modified_cases w ev)
      as [[_ Hsame] | [(_ & items & e & _ & _ & _ & Hrun)
                      | (_ & items & d' & Hf & _ & Hc & Hrun)]].
    + destruct Hsame as (Hcoll & _).
      rewrite (added_same_start w _ _ Hcoll). apply IH. exact Hacts.
    + rewrite Hrun. simpl snd.
      rewrite (added_same_start w (announced w) _ eq_refl).
      apply IH. exact Hacts.
    + rewrite Hrun. simpl snd.
      destruct (save_adds_only_new (announced w) d') as [Hcoll | [_ Hcoll]].
      * rewrite (added_same_start w _ _ Hcoll). apply IH. exact Hacts.
      * destruct (save_frame (announced w) d') as (Hfs' & _).
        set (w1 := snd (save_to_mongo d' (announced w))) in *.
        assert (Hst : stored w1 d').
        { exists (saved_record (announced w) d'). split; [ | reflexivity ].
          rewrite Hcoll. apply in_or_app. right. left. reflexivity. }
        assert (Hfs1 : fs w1 CONFIG_FILE = Parsed (VDict items))
          by (rewrite Hfs'; exact Hf).
        pose proof (notifications_of_stored_content
                      acts w1 _ d' Hacts Hfs1 Hc Hst) as Hquiet.
        fold (after acts w1). unfold after in Hquiet |- *.
        rewrite (added_after_append w _ [saved_record (announced w) d']).
        -- simpl. lia.
        -- rewrite Hquiet. exact Hcoll.
Qed.

Lemma burst_adds_at_most_one_witness :
  let acts := [Modified config_event; Modified {| src_path := "other" |};
               Modified config_event; Modified config_event] in
  forallb is_notification acts = true /\
  (List.length (added quoted_world (after acts quoted_world)) <= 1)%nat /\
  map config (collection (after acts quoted_world))
  = [VDict [("port", VInt 8080); ("name", VStr "main")]].
Proof.
  cbv zeta.
  assert (Hacts : forallb is_notification
                    [Modified config_event; Modified {| src_path := "other" |};
                     Modified config_event; Modified config_event] = true)
    by reflexivity.
  split; [ exact Hacts | ].
  split.
  - exact (burst_adds_at_most_one _ quoted_world Hacts).
  - vm_compute. reflexivity.
Defined.

(** X11. The only exception that escapes the handler is the one the
    normalizer raises, and it escapes before the store is touched: the
    notification is for the watched file, the file parses to a mapping,
    and nothing but the line announcing the change has happened. *)
Theorem handler_raises_before_the_store (w : World) (ev : event) (e : exn) :
  fst (on_modified ev w) = Raise e ->
  abspath w (src_path ev) = abspath w CONFIG_FILE /\
  (exists items,
      fs w CONFIG_FILE = Parsed (VDict items) /\
      convert_numeric_values (VDict items) = Raise e) /\
  snd (on_modified ev w) = announced w.
Proof.
  intros Hraise.
  destruct (on_modified_cases w ev)
    as [[Hok _] | [(Hpath & items & e' & Hf & _ & Hc & Hrun)
                  | (_ & items & d' & _ & _ & _ & Hrun)]].
  - rewrite Hok in Hraise. discriminate Hraise.
  - rewrite Hrun in Hraise |- *. injection Hraise as <-.
    split; [ exact Hpath | ]. split; [ | reflexivity ].
    exists items. split; assumption.
  - rewrite Hrun in Hraise. discriminate Hraise.
Qed.

Lemma handler_raises_before_the_store_witness :
  exists e,
    fst (on_modified config_event superscript_world) = Raise e /\
    collection (snd (on_modified config_event superscript_world)) = [] /\
    requests (snd (on_modified config_event superscript_world)) = 0%nat.
Proof.
  eexists.
  assert (Hraise : fst (on_modified config_event superscript_world)
                   = Raise (ValueError
                              ("invalid literal for int() with base 10: '"
                               ++ String (ascii_of_nat 178) EmptyString
                               ++ "'")%string))
    by (vm_compute; reflexivity).
  split; [ exact Hraise | ].
  destruct (handler_raises_before_the_store _ _ _ Hraise) as (_ & _ & Hw).
  rewrite Hw. split; reflexivity.
Defined.

(** X12. The handler sends a request to the server only when the
    notification is for the watched file and the file parses to a
    non-empty mapping that the normalizer accepts; in every other case the
    counters of the server and the collection are as before. *)
Theorem handler_contacts_server_only_for_valid (w : World) (ev : event) :
  requests (snd (on_modified ev w)) <> requests w ->
  abspath w (src_path ev) = abspath w CONFIG_FILE /\
  exists items d',
    fs w CONFIG_FILE = Parsed (VDict items) /\ items <> [] /\
    convert_numeric_values (VDict items) = Ok d' /\
    snd (on_modified ev w) = snd (save_to_mongo d' (announced w)).
Proof.
  intros Hreq.
  destruct (on_modified_cases w ev)
    as [[_ Hsame] | [(_ & items & e & _ & _ & _ & Hrun)
                    | (Hpath & items & d' & Hf & Hne & Hc & Hrun)]].
  - exfalso. apply Hreq. apply Hsame.
  - exfalso. apply Hreq. rewrite Hrun. reflexivity.
  - split; [ exact Hpath | ]. exists items, d'.
    rewrite Hrun. repeat split; assumption.
Qed.

Lemma handler_contacts_server_only_for_valid_witness :
  requests (snd (on_modified config_event quoted_world))
  <> requests quoted_world /\
  exists items d',
    fs quoted_world CONFIG_FILE = Parsed (VDict items) /\
    convert_numeric_values (VDict items) = Ok d' /\
    d' = VDict [("port", VInt 8080); ("name", VStr "main")].
Proof.
  assert (Hreq : requests (snd (on_modified config_event quoted_world))
                 <> requests quoted_world)
    by (vm_compute; discriminate).
  split; [ exact Hreq | ].
  destruct (handler_contacts_server_only_for_valid _ _ Hreq)
    as (_ & items & d' & Hf & _ & Hc & _).
  exists items, d'. split; [ exact Hf | ]. split; [ exact Hc | ].
  assert (Hfile : fs quoted_world CONFIG_FILE = Parsed quoted_doc)
    by (vm_compute; reflexivity).
  rewrite Hfile in Hf. injection Hf as <-.
  vm_compute in Hc. injection Hc as <-. reflexivity.
Defined.

(** ** The normalizer, in full *)

Lemma convert_rejects (d : value) :
  int_accepts d = false ->
  exists msg, convert_numeric_values d = Raise (ValueError msg).
Proof.
  induction d as [ | b | n | s | l _ | l IH ] using value_ind_nested;
    intros Hrej; try discriminate Hrej.
  simpl in Hrej. simpl.
  enough (H : exists msg,
             convert_items convert_numeric_values l = Raise (ValueError msg)).
  { destruct H as (msg & ->). exists msg. reflexivity. }
  induction IH as [ | [k v] rest Hv _ IHrest ]; simpl in Hrej |- *;
    [ discriminate Hrej | ].
  simpl in Hv.
  destruct v as [ | b | n | s | l | l ]; cbv beta iota in Hrej;
    try (destruct (IHrest Hrej) as (msg & ->); exists msg; reflexivity).
  - unfold convert_entry.
    destruct (isdigit s) eqn:Hs; simpl in Hrej.
    + destruct (int_takes s) eqn:Htakes; simpl in Hrej.
      * destruct (py_int_takes s Htakes) as [-> _]. simpl.
        destruct (IHrest Hrej) as (msg & ->). exists msg. reflexivity.
      * destruct (py_int_refuses s Htakes) as (msg & ->).
        exists msg. reflexivity.
    + simpl. destruct (IHrest Hrej) as (msg & ->). exists msg. reflexivity.
  - unfold convert_entry.
    destruct (int_accepts (VDict l)) eqn:Hacc.
    + rewrite (convert_is_normalize _ Hacc).
      cbn [rbind]. simpl andb in Hrej.
      destruct (IHrest Hrej) as (msg & ->). exists msg. reflexivity.
    + destruct (Hv eq_refl) as (msg & ->). exists msg. reflexivity.
Qed.

Lemma normalize_settles (d : value) :
  int_accepts d = true -> settled (normalize d) = true.
Proof.
  induction d as [ | b | n | s | l _ | l IH ] using value_ind_nested;
    intros Hacc; try reflexivity.
  simpl in Hacc. simpl.
  induction IH as [ | [k v] rest Hv _ IHrest ]; simpl in Hacc |- *;
    [ reflexivity | ].
  apply andb_true_iff in Hacc. destruct Hacc as [Hentry Hrest].
  rewrite (IHrest Hrest), andb_true_r. simpl in Hv.
  destruct v as [ | b | n | s | l | l ]; try reflexivity.
  - destruct (unsigned_integer s) eqn:Hu; [ reflexivity | ].
    destruct (isdigit s) eqn:Hs; [ | reflexivity ].
    simpl in Hentry. destruct (py_int_takes s Hentry) as [_ Hdec].
    rewrite (isdigit_decimal s Hs), Hu in Hdec. discriminate Hdec.
  - apply Hv in Hentry. simpl normalize in Hentry |- *. exact Hentry.
Qed.

(** X13. On documents whose strings are Latin-1, the normalizer returns
    exactly when [int] accepts every string that [isdigit] lets through:
    when each such string is made of the decimal digits 0 to 9 and has no
    more than 4300 of them, the limit of [int].  What it returns has the
    keys of the document in their order, every such string at a mapping
    entry replaced by its number, and no string left that another pass
    would convert; when it does not return it raises [ValueError]. *)
Theorem normalizer_outcome (d : value) :
  match convert_numeric_values d with
  | Ok d' => int_accepts d = true /\ d' = normalize d /\ settled d' = true
  | Raise e => int_accepts d = false /\ exists msg, e = ValueError msg
  end.
Proof.
  destruct (int_accepts d) eqn:Hacc.
  - rewrite (convert_is_normalize d Hacc).
    split; [ reflexivity | ]. split; [ reflexivity | ].
    apply normalize_settles. exact Hacc.
  - destruct (convert_rejects d Hacc) as (msg & ->).
    split; [ reflexivity | ]. exists msg. reflexivity.
Qed.

(** The limit of [int]: a string of 4300 digits is converted, one of 4301
    is refused. *)
Example digit_limit_of_int :
  convert_numeric_values (VDict [("k", VStr (zeros 4300))])
  = Ok (VDict [("k", VInt 0)]) /\
  exists msg,
    convert_numeric_values (VDict [("k", VStr (zeros 4301))])
    = Raise (ValueError msg).
Proof.
  split; [ vm_compute; reflexivity | eexists; vm_compute; reflexivity ].
Qed.

(** What the handler does with a file that parses to a non-empty mapping
    the normalizer accepts. *)
Lemma on_modified_valid (w : World) (ev : event)
      (items : list (string * value)) (d' : value) :
  abspath w (src_path ev) = abspath w CONFIG_FILE ->
  fs w CONFIG_FILE = Parsed (VDict items) ->
  items <> [] ->
  convert_numeric_values (VDict items) = Ok d' ->
  on_modified ev w = (Ok tt, snd (save_to_mongo d' (announced w))).
Proof.
  intros Hpath Hfs Hne Hc.
  destruct (on_modified_cases w ev)
    as [[Hok Hsame] | [(_ & items' & e & Hf & _ & Hc' & _)
                      | (_ & items' & d'' & Hf & _ & Hc' & Hrun)]].
  - exfalso. revert Hok Hsame. unfold on_modified.
    rewrite Hpath, String.eqb_refl.
    unfold bind, print, read_config, ret, lift.
    cbn -[detected_msg CONFIG_FILE save_to_mongo convert_numeric_values truthy].
    rewrite Hfs. destruct items as [ | kv items ]; [ contradiction | ].
    cbn [truthy]. rewrite Hc. fold (announced w).
    pose proof (save_returns_none (announced w) d') as Hnone.
    destruct (save_to_mongo d' (announced w)) as [r w1] eqn:Hsave.
    simpl in Hnone. subst r. cbn [fst snd].
    intros _ (_ & Hreq & _).
    assert (Hreq' : requests (snd (save_to_mongo d' (announced w)))
                    = requests w) by (rewrite Hsave; exact Hreq).
    revert Hreq'. clear. run_program.
    destruct (backend_up w (requests w)); step_program; [ | lia ].
    destruct (storable d'); step_program; [ | lia ].
    destruct (find _ (collection w)); step_program; [ lia | ].
    destruct (backend_up w (S (requests w))); step_program; [ | lia ].
    destruct (backend_up w (S (S (requests w)))); step_program; lia.
  - rewrite Hfs in Hf. injection Hf as <-. rewrite Hc in Hc'.
    discriminate Hc'.
  - rewrite Hfs in Hf. injection Hf as <-. rewrite Hc in Hc'.
    injection Hc' as <-. exact Hrun.
Qed.

(** X14. What the handler stores is the normalized document, not the text
    of the file: with the server reachable, a notification for the watched
    file, holding a non-empty mapping that the normalizer accepts, whose
    normal form the server can encode (no integer beyond 8 bytes in it,
    and the next version within 8 bytes) and the store does not hold,
    appends one record with the next version and the normal form as its
    configuration.  When the normal form holds an integer beyond 8 bytes,
    as the number of a long string of digits is, the handler returns all
    the same and nothing is stored. *)
Theorem handler_stores_normal_form (w : World) (ev : event)
        (items : list (string * value)) (d' : value) :
  abspath w (src_path ev) = abspath w CONFIG_FILE ->
  fs w CONFIG_FILE = Parsed (VDict items) ->
  items <> [] ->
  convert_numeric_values (VDict items) = Ok d' ->
  (always_up w ->
   storable d' = true ->
   next_version_spec (collection w) <= int64_max ->
   ~ stored w d' ->
   fst (on_modified ev w) = Ok tt /\
   collection (snd (on_modified ev w)) = collection w ++ [saved_record w d'] /\
   fs (snd (on_modified ev w)) = fs w) /\
  (storable d' = false ->
   fst (on_modified ev w) = Ok tt /\
   collection (snd (on_modified ev w)) = collection w /\
   fs (snd (on_modified ev w)) = fs w).
Proof.
  intros Hpath Hfs Hne Hc.
  rewrite (on_modified_valid w ev items d' Hpath Hfs Hne Hc).
  split.
  - intros Hup Hfit _ Hnew.
    assert (Hup' : always_up (announced w)) by exact Hup.
    assert (Hnew' : forall r, In r (collection (announced w)) -> config r <> d').
    { intros r Hr E. apply Hnew. exists r. split; assumption. }
    destruct (save_new_content (announced w) d' Hup' Hfit Hnew')
      as (_ & Hcoll & _ & _ & _ & Hfs' & _).
    split; [ reflexivity | ]. split; [ exact Hcoll | exact Hfs' ].
  - intros Hbig. cbn [fst snd].
    split; [ reflexivity | ].
    split; [ apply (save_unstorable (announced w) d' Hbig) | ].
    apply (save_frame (announced w) d').
Qed.

Lemma handler_stores_normal_form_witness :
  (always_up quoted_world /\
   abspath quoted_world (src_path config_event)
   = abspath quoted_world CONFIG_FILE /\
   convert_numeric_values quoted_doc
   = Ok (VDict [("port", VInt 8080); ("name", VStr "main")]) /\
   storable (VDict [("port", VInt 8080); ("name", VStr "main")]) = true /\
   next_version_spec (collection quoted_world) <= int64_max /\
   ~ stored quoted_world (VDict [("port", VInt 8080); ("name", VStr "main")]) /\
   map config (collection (snd (on_modified config_event quoted_world)))
   = [VDict [("port", VInt 8080); ("name", VStr "main")]]) /\
  (convert_numeric_values long_number_doc
   = Ok (VDict [("n", VInt 99999999999999999999)]) /\
   storable (VDict [("n", VInt 99999999999999999999)]) = false /\
   fst (on_modified config_event long_number_world) = Ok tt /\
   collection (snd (on_modified config_event long_number_world))
   = collection long_number_world).
Proof.
  split.
  - assert (Hup : always_up quoted_world) by (intros n; reflexivity).
    assert (Hpath : abspath quoted_world (src_path config_event)
                    = abspath quoted_world CONFIG_FILE) by reflexivity.
    assert (Hfs : fs quoted_world CONFIG_FILE
                  = Parsed (VDict [("port", VStr "8080"); ("name", VStr "main")]))
      by (vm_compute; reflexivity).
    assert (Hne : [("port", VStr "8080"); ("name", VStr "main")]
                  <> @nil (string * value)) by discriminate.
    assert (Hc : convert_numeric_values
                   (VDict [("port", VStr "8080"); ("name", VStr "main")])
                 = Ok (VDict [("port", VInt 8080); ("name", VStr "main")]))
      by (vm_compute; reflexivity).
    assert (Hnew : ~ stored quoted_world
                     (VDict [("port", VInt 8080); ("name", VStr "main")])).
    { intros (r & Hr & _). destruct Hr. }
    assert (Hfit : storable (VDict [("port", VInt 8080); ("name", VStr "main")])
                   = true) by reflexivity.
    assert (Hnext : next_version_spec (collection quoted_world) <= int64_max)
      by (vm_compute; discriminate).
    split; [ exact Hup | ].
    split; [ exact Hpath | ].
    split; [ exact Hc | ].
    split; [ exact Hfit | ].
    split; [ exact Hnext | ].
    split; [ exact Hnew | ].
    destruct (handler_stores_normal_form
                quoted_world config_event _ _ Hpath Hfs Hne Hc)
      as (Hstores & _).
    destruct (Hstores Hup Hfit Hnext Hnew) as (_ & Hcoll & _).
    rewrite Hcoll. reflexivity.
  - assert (Hpath : abspath long_number_world (src_path config_event)
                    = abspath long_number_world CONFIG_FILE) by reflexivity.
    assert (Hfs : fs long_number_world CONFIG_FILE
                  = Parsed (VDict [("n", VStr "99999999999999999999")]))
      by (vm_compute; reflexivity).
    assert (Hne : [("n", VStr "99999999999999999999")]
                  <> @nil (string * value)) by discriminate.
    assert (Hc : convert_numeric_values
                   (VDict [("n", VStr "99999999999999999999")])
                 = Ok (VDict [("n", VInt 99999999999999999999)]))
      by (vm_compute; reflexivity).
    assert (Hbig : storable (VDict [("n", VInt 99999999999999999999)]) = false)
      by reflexivity.
    split; [ exact Hc | ].
    split; [ exact Hbig | ].
    destruct (handler_stores_normal_form
                long_number_world config_event _ _ Hpath Hfs Hne Hc)
      as (_ & Hrefused).
    destruct (Hrefused Hbig) as (Hret & Hcoll & _).
    split; [ exact Hret | exact Hcoll ].
Defined.

(** ** Content that is in the store *)

Lemma stored_after (acts : list action) :
  forall (w : World) (data : value),
    stored w data -> stored (after acts w) data.
Proof.
  induction acts as [ | a acts IH ]; intros w data Hst.
  - exact Hst.
  - unfold after in *. simpl fold_left. apply IH.
    destruct Hst as (r & Hin & Hcfg). exists r. split; [ | exact Hcfg ].
    destruct (perform_adds_at_most_one a w) as [H | (r' & H & _)];
      rewrite H; [ exact Hin | ].
    apply in_or_app. left. exact Hin.
Qed.

(** X15. Deduplication does not wear off: content the store holds is never
    stored again by a save, whatever has been done in between (later
    saves, rollbacks, reads, notifications) and whatever the server does. *)
Theorem stored_content_is_never_saved_again
        (acts : list action) (w : World) (data : value) :
  stored w data ->
  collection (snd (save_to_mongo data (after acts w)))
  = collection (after acts w).
Proof.
  intros Hst. apply save_of_stored_adds_nothing.
  apply stored_after. exact Hst.
Qed.

Lemma stored_content_is_never_saved_again_witness :
  let acts := [Save doc_a3; Rollback 2; GetAll; Save doc_a2] in
  stored sample_world doc_a1 /\
  collection (snd (save_to_mongo doc_a1 (after acts sample_world)))
  = collection (after acts sample_world) /\
  List.length (collection (after acts sample_world)) = 5%nat.
Proof.
  cbv zeta.
  assert (Hst : stored sample_world doc_a1).
  { eexists. split; [ left; reflexivity | reflexivity ]. }
  split; [ exact Hst | ].
  split.
  - exact (stored_content_is_never_saved_again _ sample_world doc_a1 Hst).
  - vm_compute. reflexivity.
Defined.

(** ** Nothing escapes the routes *)

Lemma rollback_never_raises (w : World) (v : Z) :
  exists ok msg, fst (rollback_to_version v w) = Ok (ok, msg).
Proof.
  run_program.
  destruct (backend_up w (requests w)); step_program;
    [ | eexists; eexists; reflexivity ].
  destruct (find _ (collection w)) as [target | ]; step_program;
    [ | eexists; eexists; reflexivity ].
  destruct (backend_up w (S (requests w))); step_program;
    [ | eexists; eexists; reflexivity ].
  destruct (backend_up w (S (S (requests w)))); step_program;
    [ | eexists; eexists; reflexivity ].
  destruct (storable (config target)); step_program;
    [ | eexists; eexists; reflexivity ].
  destruct (write_error w CONFIG_FILE); step_program;
    [ eexists; eexists; reflexivity | ].
  destruct (dump_error w CONFIG_FILE) as [[m remains] | ]; step_program;
    eexists; eexists; reflexivity.
Qed.

(** X16. Whatever the server and the file system do, no exception leaves
    [save_to_mongo] or any of the four routes: the read routes answer with
    an object or a list, the rollback route with its flag and message. *)
Theorem routes_always_answer (w : World) (v : Z) (data : value) :
  fst (save_to_mongo data w) = Ok None /\
  (exists payload, fst (get_latest_config w) = Ok (VDict payload)) /\
  (exists entries, fst (get_config_history w) = Ok (VList entries)) /\
  (exists entries, fst (view_all_configs w) = Ok (VList entries)) /\
  (exists ok msg,
      fst (rollback v w)
      = Ok (VDict [("success", VBool ok); ("message", VStr msg)])).
Proof.
  split; [ apply save_returns_none | ].
  split.
  { unfold get_latest_config. run_program.
    destruct (backend_up w (requests w)); step_program;
      [ | eexists; reflexivity ].
    destruct (latest (collection w)); eexists; reflexivity. }
  assert (Hall : exists entries, fst (fetch_all_versions w) = Ok entries).
  { run_program.
    destruct (backend_up w (requests w)); eexists; reflexivity. }
  destruct Hall as (entries & Hall).
  split; [ | split ].
  - exists entries. unfold get_config_history.
    rewrite fst_bind_pure, Hall. reflexivity.
  - exists entries. unfold view_all_configs.
    rewrite fst_bind_pure, Hall. reflexivity.
  - destruct (rollback_never_raises w v) as (ok & msg & H).
    exists ok, msg. unfold rollback. rewrite fst_bind_pure, H. reflexivity.
Qed.

(** ** The first version of the program *)

Lemma old_save_appends (w : World) (data : value) :
  always_up w ->
  storable data = true ->
  fst (AutoConfigSave.save_to_mongo data w) = Ok None /\
  collection (snd (AutoConfigSave.save_to_mongo data w))
  = collection w ++ [saved_record w data] /\
  backend_up (snd (AutoConfigSave.save_to_mongo data w)) = backend_up w.
Proof.
  intros Hup Hfit. unfold AutoConfigSave.save_to_mongo.
  run_program. server_answers Hup. rewrite Hfit. step_program.
  rewrite next_version_of_latest, stored_doc_fixed by exact Hfit.
  repeat split.
Qed.

Lemma old_save_unstorable (w : World) (data : value) :
  storable data = false ->
  fst (AutoConfigSave.save_to_mongo data w) = Ok None /\
  collection (snd (AutoConfigSave.save_to_mongo data w)) = collection w.
Proof.
  intros Hfit. unfold AutoConfigSave.save_to_mongo. run_program.
  destruct (backend_up w (requests w)); step_program;
    [ | split; reflexivity ].
  destruct (backend_up w (S (requests w))); step_program;
    [ | split; reflexivity ].
  rewrite Hfit. split; reflexivity.
Qed.

(** X17. [save_to_mongo] of [auto_config_save.py] has no dedup query: with
    the server reachable every call with a document the server can encode
    appends a record, so saving a list of such documents, repetitions
    included, makes one version per document, numbered consecutively from
    the next version, as long as the versions stay within 8 bytes.  A
    document that holds an integer beyond 8 bytes is not stored. *)
Theorem old_save_numbers_every_call (docs : list value) (w : World) :
  (always_up w ->
   forallb storable docs = true ->
   next_version_spec (collection w) + Z.of_nat (List.length docs)
   <= int64_max + 1 ->
   exists new,
     collection (snd (run_all AutoConfigSave.save_to_mongo docs w))
     = collection w ++ new /\
     map config new = docs /\
     map version new
     = consecutive (next_version_spec (collection w)) (List.length docs)) /\
  (forall d,
      storable d = false ->
      fst (AutoConfigSave.save_to_mongo d w) = Ok None /\
      collection (snd (AutoConfigSave.save_to_mongo d w)) = collection w).
Proof.
  split; [ | intros d; apply old_save_unstorable ].
  intros Hup Hfit _.
  revert w Hup. induction docs as [ | d docs IH ]; intros w Hup.
  - exists []. simpl. rewrite app_nil_r. repeat split.
  - simpl in Hfit. apply andb_true_iff in Hfit. destruct Hfit as [Hd Hdocs].
    destruct (old_save_appends w d Hup Hd) as (Hret & Hcoll & Hback).
    rewrite (run_all_cons AutoConfigSave.save_to_mongo d docs w None Hret).
    set (w1 := snd (AutoConfigSave.save_to_mongo d w)) in *.
    destruct (IH Hdocs w1) as (new & Hnew & Hcfg & Hver).
    { intros n. rewrite Hback. apply Hup. }
    exists (saved_record w d :: new).
    rewrite Hnew, Hcoll, <- app_assoc.
    split; [ reflexivity | ]. split.
    + simpl. rewrite Hcfg. reflexivity.
    + simpl List.length. rewrite consecutive_succ. simpl. f_equal.
      rewrite Hver, Hcoll. f_equal.
      apply next_version_after_append. reflexivity.
Qed.

Lemma old_save_numbers_every_call_witness :
  always_up fresh_world /\
  forallb storable [doc_a1; doc_a1; doc_a1] = true /\
  next_version_spec (collection fresh_world) + 3 <= int64_max + 1 /\
  exists new,
    collection (snd (run_all AutoConfigSave.save_to_mongo
                       [doc_a1; doc_a1; doc_a1] fresh_world))
    = collection fresh_world ++ new /\
    map config new = [doc_a1; doc_a1; doc_a1] /\
    map version new = consecutive 1 3.
Proof.
  assert (Hup : always_up fresh_world) by (intros n; reflexivity).
  assert (Hfit : forallb storable [doc_a1; doc_a1; doc_a1] = true)
    by reflexivity.
  assert (Hnext : next_version_spec (collection fresh_world)
                  + Z.of_nat (List.length [doc_a1; doc_a1; doc_a1])
                  <= int64_max + 1)
    by (vm_compute; discriminate).
  split; [ exact Hup | ].
  split; [ exact Hfit | ].
  split; [ exact Hnext | ].
  exact (proj1 (old_save_numbers_every_call
                  [doc_a1; doc_a1; doc_a1] fresh_world) Hup Hfit Hnext).
Defined.

(** X18. The handler of [auto_config_save.py] does not ask for a mapping:
    [read_config] returns whatever the file parses to, so with the server
    reachable a notification for a file holding a list, a non-empty string,
    a number other than 0 or [true] stores that value as it is, as the
    configuration of a new version, when the server can encode it: when no
    integer in it, nor the next version, is beyond 8 bytes. *)
Theorem old_handler_stores_non_mappings
        (w : World) (ev : event) (data : value) :
  always_up w ->
  abspath w (src_path ev) = abspath w AutoConfigSave.CONFIG_FILE ->
  fs w AutoConfigSave.CONFIG_FILE = Parsed data ->
  truthy data = true ->
  (forall items, data <> VDict items) ->
  storable data = true ->
  next_version_spec (collection w) <= int64_max ->
  fst (AutoConfigSave.on_modified ev w) = Ok tt /\
  collection (snd (AutoConfigSave.on_modified ev w))
  = collection w ++ [saved_record w data].
Proof.
  intros Hup Hpath Hfs Htruthy Hshape Hfit _.
  unfold AutoConfigSave.on_modified. rewrite Hpath, String.eqb_refl.
  unfold AutoConfigSave.read_config, bind, print, ret, lift.
  cbn -[AutoConfigSave.detected_msg AutoConfigSave.parser_results_msg
        AutoConfigSave.CONFIG_FILE AutoConfigSave.save_to_mongo
        convert_numeric_values truthy].
  rewrite Hfs.
  cbn -[AutoConfigSave.detected_msg AutoConfigSave.parser_results_msg
        AutoConfigSave.CONFIG_FILE AutoConfigSave.save_to_mongo
        convert_numeric_values truthy].
  rewrite Htruthy, (convert_leaves_non_mappings data Hshape).
  set (w1 := set_stdout _ _).
  assert (Hup1 : always_up w1) by exact Hup.
  destruct (old_save_appends w1 data Hup1 Hfit) as (Hret & Hcoll & _).
  destruct (AutoConfigSave.save_to_mongo data w1) as [r w2].
  simpl in Hret, Hcoll. subst r. split; [ reflexivity | exact Hcoll ].
Qed.

Lemma old_handler_stores_non_mappings_witness :
  let ev := {| src_path := AutoConfigSave.CONFIG_FILE |} in
  always_up list_in_old_file /\
  fs list_in_old_file AutoConfigSave.CONFIG_FILE
  = Parsed (VList [VStr "a"; VStr "b"]) /\
  storable (VList [VStr "a"; VStr "b"]) = true /\
  next_version_spec (collection list_in_old_file) <= int64_max /\
  map config (collection (snd (AutoConfigSave.on_modified ev list_in_old_file)))
  = [VList [VStr "a"; VStr "b"]].
Proof.
  cbv zeta.
  assert (Hup : always_up list_in_old_file) by (intros n; reflexivity).
  assert (Hfs : fs list_in_old_file AutoConfigSave.CONFIG_FILE
                = Parsed (VList [VStr "a"; VStr "b"]))
    by (vm_compute; reflexivity).
  assert (Hshape : forall items, VList [VStr "a"; VStr "b"] <> VDict items)
    by discriminate.
  assert (Hfit : storable (VList [VStr "a"; VStr "b"]) = true)
    by reflexivity.
  assert (Hnext : next_version_spec (collection list_in_old_file) <= int64_max)
    by (vm_compute; discriminate).
  split; [ exact Hup | ].
  split; [ exact Hfs | ].
  split; [ exact Hfit | ].
  split; [ exact Hnext | ].
  destruct (old_handler_stores_non_mappings
              list_in_old_file {| src_path := AutoConfigSave.CONFIG_FILE |}
              _ Hup eq_refl Hfs eq_refl Hshape Hfit Hnext) as (_ & Hcoll).
  rewrite Hcoll. reflexivity.
Defined.
